(** * Ollama-Copilot: the completion engine

    A shallow embedding of [completion_engine.py] (class [CompletionEngine])
    and the properties of its payload construction.

    Conventions of the embedding:
    - a Python [str] is a list of characters ([list ascii], one [ascii] per
      code point, so code points 0..255); [len], slicing and concatenation
      are the list operations;
    - a Python [int] is a [Z]; slices take [Z] bounds and follow Python's
      rules for negative and out-of-range bounds;
    - a Python [dict] with string keys is a [gmap string _]; dicts that are
      shared between objects live in a store and are referred to by
      location;
    - code that can raise returns a [result]. *)

From Stdlib Require Import ZArith Ascii String List Lia.
From stdpp Require Import base option list gmap strings.

Local Open Scope Z_scope.

(** ** Python strings and sequences *)

Module Py.

Abbreviation str := (list ascii) (only parsing).

Definition lit (s : string) : str := list_ascii_of_string s.
Global Arguments lit : simpl never.

Definition nl : ascii := "010"%char.
Definition tab : ascii := "009"%char.
Definition space : ascii := " "%char.

(** [len(x)] as a Python integer. *)
Definition len {A} (l : list A) : Z := Z.of_nat (length l).

(** The position a slice bound [i] denotes in a sequence of length [n]:
    a negative bound counts from the end, and every bound is clipped into
    [0..n]. *)
Definition slice_bound (n : nat) (i : Z) : nat :=
  Z.to_nat (if i <? 0 then Z.max 0 (i + Z.of_nat n) else Z.min i (Z.of_nat n)).

(** [l[i:]] *)
Definition slice_from {A} (l : list A) (i : Z) : list A :=
  drop (slice_bound (length l) i) l.

(** [l[:j]] *)
Definition slice_to {A} (l : list A) (j : Z) : list A :=
  take (slice_bound (length l) j) l.

(** [l[i:j]] *)
Definition slice {A} (l : list A) (i j : Z) : list A :=
  take (slice_bound (length l) j - slice_bound (length l) i)
       (drop (slice_bound (length l) i) l).

(** [l[i]]; [None] stands for IndexError. *)
Definition index {A} (l : list A) (i : Z) : option A :=
  if i <? 0
  then (if i + len l <? 0 then None else l !! Z.to_nat (i + len l))
  else l !! Z.to_nat i.

(** [sep.join(parts)] *)
Fixpoint join (sep : str) (parts : list str) : str :=
  match parts with
  | [] => []
  | [p] => p
  | p :: rest => p ++ sep ++ join sep rest
  end.

(** [s.lstrip(chars)] *)
Fixpoint lstrip (chars : list ascii) (s : str) : str :=
  match s with
  | [] => []
  | c :: s' => if bool_decide (c ∈ chars) then lstrip chars s' else s
  end.

(** Truth value of a string: non-empty. *)
Definition nonempty (s : str) : bool :=
  match s with [] => false | _ => true end.

(** [sub in s], and the positions at which [sub] occurs in [s]. *)
Fixpoint starts_with (sub s : str) : bool :=
  match sub, s with
  | [], _ => true
  | _ :: _, [] => false
  | a :: sub', b :: s' => bool_decide (a = b) && starts_with sub' s'
  end.

Fixpoint occurrences_from (pos : nat) (sub s : str) : list nat :=
  (if starts_with sub s then [pos] else []) ++
  match s with
  | [] => []
  | _ :: s' => occurrences_from (S pos) sub s'
  end.

Definition occurrences (sub s : str) : list nat := occurrences_from 0 sub s.

Definition contains (sub s : str) : bool :=
  match occurrences sub s with [] => false | _ => true end.

(** Number of newline characters at the very end of [s]. *)
Fixpoint leading_newlines (s : str) : nat :=
  match s with
  | c :: s' => if bool_decide (c = nl) then S (leading_newlines s') else 0%nat
  | [] => 0%nat
  end.

Definition trailing_newlines (s : str) : nat := leading_newlines (rev s).

End Py.

Import Py.

(** ** Results of code that can raise *)

Inductive exn_class :=
  TypeError | ValueError | IndexError | OverflowError | OtherError.

Record exn := Exn { exn_class_of : exn_class; exn_message : str }.

Inductive result (A : Type) :=
| Ok (a : A)
| Raise (e : exn).
Arguments Ok {A} a.
Arguments Raise {A} e.

Global Instance result_ret : MRet result := fun A a => Ok a.
Global Instance result_bind : MBind result := fun A B k r =>
  match r with
  | Ok a => k a
  | Raise e => Raise e
  end.

Definition of_index {A} (o : option A) : result A :=
  match o with
  | Some a => Ok a
  | None => Raise (Exn IndexError (lit "list index out of range"))
  end.

(** ** Python values and the store of shared dicts *)

Abbreviation loc := positive (only parsing).

(** A float is kept as the rational it denotes ([FFinite num den]), or is
    an infinity or a NaN. *)
Inductive pyfloat := FFinite (num : Z) (den : positive) | FInfinity | FNaN.

Inductive pyval :=
| VNone
| VBool (b : bool)
| VInt (z : Z)
| VFloat (f : pyfloat)
| VStr (s : str)
| VDict (l : loc).

Global Instance pyfloat_eq_dec : EqDecision pyfloat.
Proof. solve_decision. Defined.
Global Instance pyval_eq_dec : EqDecision pyval.
Proof. solve_decision. Defined.

(** The store holds the dicts that are referred to from several places:
    the caller's options dict, the engine's [self.options] and every
    payload's ["options"] entry. *)
Abbreviation store := (gmap loc (gmap string pyval)) (only parsing).

Definition deref (st : store) (l : loc) : gmap string pyval :=
  default ∅ (st !! l).

(** [bool(v)] *)
Definition truthy (st : store) (v : pyval) : bool :=
  match v with
  | VNone => false
  | VBool b => b
  | VInt z => negb (z =? 0)
  | VFloat (FFinite n _) => negb (n =? 0)
  | VFloat FInfinity => true
  | VFloat FNaN => true
  | VStr s => nonempty s
  | VDict l => negb (bool_decide (deref st l = ∅))
  end.

(** [a or b] *)
Definition py_or (st : store) (a b : pyval) : pyval :=
  if truthy st a then a else b.

(** *** [int(v)]

    The error messages are shortened: the texts of CPython quote the
    offending literal or type. *)

(** The padding [int] accepts around a literal: tab to carriage return,
    the space, and the two spaces U+0085 and U+00A0 beyond ASCII. *)
Definition is_py_space (c : ascii) : bool :=
  let n := nat_of_ascii c in
  ((9 <=? n) && (n <=? 13) || (n =? 32) || (n =? 133) || (n =? 160))%nat.

Definition digit_of (c : ascii) : option Z :=
  let n := nat_of_ascii c in
  if ((48 <=? n) && (n <=? 57))%nat then Some (Z.of_nat n - 48) else None.

Definition strip (s : str) : str :=
  let drop_spaces := fix go (s : str) : str :=
    match s with
    | c :: s' => if is_py_space c then go s' else s
    | [] => []
    end in
  rev (drop_spaces (rev (drop_spaces s))).

(** Digits with single underscores between them. [after_digit] tells
    whether the previous character was a digit. *)
Fixpoint parse_digits (acc : Z) (after_digit : bool) (s : str) : option Z :=
  match s with
  | [] => if after_digit then Some acc else None
  | c :: s' =>
      match digit_of c with
      | Some d => parse_digits (10 * acc + d) true s'
      | None =>
          if bool_decide (c = "_"%char) && after_digit
          then match s' with
               | [] => None
               | _ => parse_digits acc false s'
               end
          else None
      end
  end.

(** The literal after its sign: more than 4300 digits are refused (the
    default limit of CPython on the digits of a decimal literal). *)
Definition parse_unsigned (s : str) : option Z :=
  if (4300 <? length (filter (λ c, is_Some (digit_of c)) s))%nat then None
  else parse_digits 0 false s.

Definition parse_int (s : str) : option Z :=
  match strip s with
  | c :: s' =>
      if bool_decide (c = "-"%char) then Z.opp <$> parse_unsigned s'
      else if bool_decide (c = "+"%char) then parse_unsigned s'
      else parse_unsigned (c :: s')
  | [] => None
  end.

Definition py_int (v : pyval) : result Z :=
  match v with
  | VBool b => Ok (if b then 1 else 0)
  | VInt z => Ok z
  | VFloat (FFinite n d) => Ok (Z.quot n (Z.pos d))
  | VFloat FInfinity =>
      Raise (Exn OverflowError (lit "cannot convert float infinity to integer"))
  | VFloat FNaN =>
      Raise (Exn ValueError (lit "cannot convert float NaN to integer"))
  | VStr s =>
      match parse_int s with
      | Some z => Ok z
      | None => Raise (Exn ValueError (lit "invalid literal for int()"))
      end
  | VNone | VDict _ =>
      Raise (Exn TypeError (lit "int() argument must be a string or a number"))
  end.

(** *** [json.dumps(s)] for a string [s] *)

Definition hex_digit (n : nat) : ascii :=
  ascii_of_nat (if (n <? 10)%nat then 48 + n else 87 + n).

Definition json_escape (c : ascii) : str :=
  let n := nat_of_ascii c in
  if bool_decide (c = "034"%char) then lit "\" ++ ["034"%char]
  else if bool_decide (c = "\"%char) then lit "\\"
  else if (n =? 8)%nat then lit "\b"
  else if (n =? 12)%nat then lit "\f"
  else if (n =? 10)%nat then lit "\n"
  else if (n =? 13)%nat then lit "\r"
  else if (n =? 9)%nat then lit "\t"
  else if ((n <? 32) || (126 <? n))%nat
       then lit "\u00" ++ [hex_digit (n / 16); hex_digit (n mod 16)]
  else [c].

Definition json_dumps (s : str) : str :=
  ["034"%char] ++ concat (map json_escape s) ++ ["034"%char].

(** ** Stateful code: a state and error monad

    [M S A] is a computation over a state [S] that returns an [A] or
    raises; the state changes made before an exception are kept. *)

Definition M (S A : Type) : Type := S -> result A * S.

Global Instance M_ret {S} : MRet (M S) := fun A a st => (Ok a, st).
Global Instance M_bind {S} : MBind (M S) := fun A B k m st =>
  match m st with
  | (Ok a, st') => k a st'
  | (Raise e, st') => (Raise e, st')
  end.

Definition lift {S A} (r : result A) : M S A := fun st => (r, st).
Definition get_state {S} : M S S := fun st => (Ok st, st).

(** ** The engine *)

Record engine := Engine {
  model : str;
  client : str;                 (* the Ollama client, known by its URL *)
  options : loc;                (* reference to the pass-through dict *)
  fim_enabled : pyval;
  fim_mode : pyval;
  context_lines_before : Z;
  context_lines_after : Z;
  max_prefix_chars : Z;
  max_suffix_chars : Z;
  debug : bool;
  debug_log_file : pyval;
}.

(** The configuration keys that [__init__] takes out of the options. *)
Definition recognized_keys : list string :=
  ["fim_enabled"; "fim_mode"; "context_lines_before"; "context_lines_after";
   "max_prefix_chars"; "max_suffix_chars"; "debug"; "debug_log_file"]%string.

(** [d.pop(key, default)] on the dict at [l]. *)
Definition dict_pop (l : loc) (key : string) (dflt : pyval) : M store pyval :=
  fun st =>
    (Ok (default dflt (deref st l !! key)),
     <[l := delete key (deref st l)]> st).

(** A new empty dict [{}]. *)
Definition new_dict : M store loc :=
  fun st => let l := fresh (dom st) in (Ok l, <[l := ∅]> st).

(** [os.getenv(name, default)] in the environment [env]. *)
Definition getenv (env : gmap string str) (name : string) (dflt : str) : str :=
  default dflt (env !! name).

(** [ollama.Client(client_url)] belongs to the Ollama library: the model
    is of the constructions in which that call returns, and keeps the URL
    in the place of the client object. *)
Definition __init__ (env : gmap string str)
    (model client_url : str) (opts : option loc) : M store engine :=
  (* self.options = options or {} *)
  st0 ← get_state;
  self_options ←
    match opts with
    | Some l => if truthy st0 (VDict l) then mret l else new_dict
    | None => new_dict
    end;
  fim_enabled ← dict_pop self_options "fim_enabled" (VBool true);
  fim_mode ← dict_pop self_options "fim_mode" (VStr (lit "auto"));
  v ← dict_pop self_options "context_lines_before" (VInt 80);
  context_lines_before ← lift (py_int v);
  v ← dict_pop self_options "context_lines_after" (VInt 40);
  context_lines_after ← lift (py_int v);
  v ← dict_pop self_options "max_prefix_chars" (VInt 8000);
  max_prefix_chars ← lift (py_int v);
  v ← dict_pop self_options "max_suffix_chars" (VInt 3000);
  max_suffix_chars ← lift (py_int v);
  v ← dict_pop self_options "debug" (VBool false);
  st1 ← get_state;
  let debug :=
    truthy st1 v
    || bool_decide (getenv env "OLLAMA_COPILOT_DEBUG" [] = lit "1") in
  v ← dict_pop self_options "debug_log_file" VNone;
  st2 ← get_state;
  let debug_log_file :=
    py_or st2 v
      (VStr (getenv env "OLLAMA_COPILOT_DEBUG_LOG"
               (lit "/tmp/ollama-copilot-debug.log"))) in
  mret {| model := model; client := client_url; options := self_options;
          fim_enabled := fim_enabled; fim_mode := fim_mode;
          context_lines_before := context_lines_before;
          context_lines_after := context_lines_after;
          max_prefix_chars := max_prefix_chars;
          max_suffix_chars := max_suffix_chars;
          debug := debug; debug_log_file := debug_log_file |}.

(** ** Payload construction *)

Section Methods.

Variable st : store.
Variable self : engine.

Definition _split_prefix_suffix (lines : list str) (line character : Z)
  : result (str * str * str) :=
  let bounded_line :=
    if bool_decide (lines ≠ []) then Z.max 0 (Z.min line (len lines - 1))
    else 0 in
  current_line ←
    (if bool_decide (lines ≠ []) then of_index (index lines bounded_line)
     else Ok []);
  let bounded_character := Z.max 0 (Z.min character (len current_line)) in
  let left := slice_to current_line bounded_character in
  let right := slice_from current_line bounded_character in
  let indent :=
    slice_to left (len left - len (lstrip [space; tab] left)) in
  let prefix := join [nl] (slice_to lines bounded_line) in
  let prefix := if nonempty prefix then prefix ++ [nl] ++ left else left in
  let suffix := right in
  let suffix :=
    if bounded_line + 1 <? len lines
    then (suffix ++ [nl]) ++ join [nl] (slice_from lines (bounded_line + 1))
    else suffix in
  Ok (prefix, suffix, indent).

(** The lines [_centered_prefix] shows before the cursor line. *)
Definition before_lines (lines : list str) (bounded_line : Z) : list str :=
  let start := Z.max 0 (bounded_line - context_lines_before self) in
  slice lines start bounded_line.

Definition _centered_prefix (lines : list str) (line character : Z)
    (filetype indent : str) : result str :=
  let lines := if bool_decide (lines = []) then [[]] else lines in
  let bounded_line := Z.max 0 (Z.min line (len lines - 1)) in
  current_line ← of_index (index lines bounded_line);
  let bounded_character := Z.max 0 (Z.min character (len current_line)) in
  let before_lines := before_lines lines bounded_line in
  let line_prefix := slice_to current_line bounded_character in
  let line_suffix := slice_from current_line bounded_character in
  let before_text := join [nl] before_lines in
  let before_text :=
    if max_prefix_chars self <? len before_text
    then slice_from before_text (- max_prefix_chars self)
    else before_text in
  Ok (lit "[AUTOCOMPLETE_TASK]" ++ [nl]
      ++ lit "Return ONLY the exact text to insert at <CURSOR>." ++ [nl]
      ++ lit "Do not restate existing text. Do not explain. Do not use markdown fences." ++ [nl]
      ++ lit "filetype=" ++ (if nonempty filetype then filetype else lit "plain") ++ [nl]
      ++ lit "indentation=" ++ json_dumps indent ++ [nl]
      ++ lit "[PREFIX_BEFORE_CURSOR]" ++ [nl]
      ++ before_text ++ [nl]
      ++ lit "[CURRENT_LINE_PREFIX]" ++ [nl]
      ++ line_prefix ++ [nl]
      ++ lit "[CURRENT_LINE_SUFFIX]" ++ [nl]
      ++ line_suffix ++ [nl]
      ++ lit "[INSERT_AT_CURSOR]" ++ [nl]).

Definition FIM_PREFIX : str := lit "<|fim_prefix|>".
Definition FIM_SUFFIX : str := lit "<|fim_suffix|>".
Definition FIM_MIDDLE : str := lit "<|fim_middle|>".

Definition _manual_fim_prompt (prefix suffix : str) : str :=
  let bounded_suffix := slice_to suffix (max_suffix_chars self) in
  FIM_PREFIX ++ prefix ++ FIM_SUFFIX ++ bounded_suffix ++ FIM_MIDDLE.

(** The truth value of
    [self.fim_enabled and not force_manual_fim and self.fim_mode in ("auto", "template")]. *)
Definition use_template_fim (force_manual_fim : bool) : bool :=
  truthy st (fim_enabled self)
  && negb force_manual_fim
  && (bool_decide (fim_mode self = VStr (lit "auto"))
      || bool_decide (fim_mode self = VStr (lit "template"))).

Definition build_request_payload (lines : list str) (line character : Z)
    (filetype : str) (force_manual_fim : bool) : result (gmap string pyval) :=
  '(prefix, suffix, local_indent) ← _split_prefix_suffix lines line character;
  centered_prefix ← _centered_prefix lines line character filetype local_indent;
  let payload : gmap string pyval :=
    <["options" := VDict (options self)]>
      (<["stream" := VBool true]> (<["model" := VStr (model self)]> ∅)) in
  if use_template_fim force_manual_fim then
    let payload :=
      <["prompt" := VStr (slice_from prefix (- max_prefix_chars self))]> payload in
    let payload :=
      <["suffix" := VStr (slice_to suffix (max_suffix_chars self))]> payload in
    Ok payload
  else if truthy st (fim_enabled self) then
    Ok (<["prompt" := VStr (_manual_fim_prompt
                             (slice_from prefix (- max_prefix_chars self))
                             suffix)]> payload)
  else
    Ok (<["prompt" := VStr (centered_prefix ++ [nl])]> payload).

End Methods.

(** ** The response stream *)

(** A raw chunk is a dict, or some other object. Of an object the code
    looks at its [model_dump] and [dict] methods, each modelled by the
    mapping it returns when the object has it, and at [str(chunk)]. *)
Inductive chunk :=
| ChunkDict (d : gmap string pyval)
| ChunkObj (model_dump dict_method : option (gmap string pyval)) (as_str : str).

Definition _normalize_chunk (c : chunk) : gmap string pyval :=
  match c with
  | ChunkDict d => d
  | ChunkObj (Some dumped) _ _ => dumped
  | ChunkObj None (Some d) _ => d
  | ChunkObj None None s => {[ "response"%string := VStr s ]}
  end.

(** ** The top-level operation *)

Section Complete.

(** The backend behind [self.client.generate]: it has a state of its own,
    and a call returns a stream of chunks or raises. *)
Variable backend : Type.
Variable generate : gmap string pyval -> M backend (list chunk).

(** What a call to [complete] can change: the backend, and the debug log
    file (the one [debug_log_file] names), kept as the list of records
    written to it. [submitted] records the payloads passed to [generate], in
    order. [log_accepts event payload] tells whether the [try] block of
    [_debug_log] goes through for that record: the file opens, the record
    is serialized by [json.dumps] and is written; when it is false, one of
    these raises. *)
Record world := World {
  world_backend : backend;
  submitted : list (gmap string pyval);
  log_accepts : string -> gmap string pyval -> bool;
  log_records : list (string * gmap string pyval);
}.

Definition client_generate (payload : gmap string pyval)
  : M world (list chunk) :=
  fun w =>
    let '(r, b) := generate payload (world_backend w) in
    (r, {| world_backend := b;
           submitted := submitted w ++ [payload];
           log_accepts := log_accepts w;
           log_records := log_records w |}).

(** Writes one record when debugging is on; whatever the [try] block
    raises, on opening, serializing or writing, is swallowed and nothing is
    written. The payloads logged here are dicts, which have neither
    [model_dump] nor [dict]. *)
Definition _debug_log (self : engine) (event : string)
    (payload : gmap string pyval) : M world unit :=
  fun w =>
    if negb (debug self) then (Ok (), w)
    else if log_accepts w event payload then
      (Ok (), {| world_backend := world_backend w;
                 submitted := submitted w;
                 log_accepts := log_accepts w;
                 log_records := log_records w ++ [(event, payload)] |})
    else (Ok (), w).

(** The generator returned by [_debug_stream], consumed to its end: it
    yields the normalized chunks and logs each one. The stream is one that
    the backend delivers to its end, as a finite list of chunks; a stream
    that raises while it is iterated is outside this model. *)
Fixpoint _debug_stream (self : engine) (stream : list chunk)
  : M world (list (gmap string pyval)) :=
  match stream with
  | [] => mret []
  | c :: rest =>
      let normalized_chunk := _normalize_chunk c in
      _ ← (if debug self then _debug_log self "raw_chunk" normalized_chunk
           else mret ());
      more ← _debug_stream self rest;
      mret (normalized_chunk :: more)
  end.

(** [try: body except TypeError as exc: handler exc] *)
Definition try_except_TypeError {A} (body : M world A)
    (handler : exn -> M world A) : M world A :=
  fun w =>
    match body w with
    | (Raise e, w') =>
        match exn_class_of e with
        | TypeError => handler e w'
        | _ => (Raise e, w')
        end
    | ok => ok
    end.

(** [complete] returns the generator made by [_debug_stream], which has not
    run yet: the returned value is the suspended computation. *)
Definition complete (st : store) (self : engine) (lines : list str)
    (line character : Z) (filetype : str)
  : M world (M world (list (gmap string pyval))) :=
  payload ← lift (build_request_payload st self lines line character filetype false);
  _ ← _debug_log self "payload" payload;
  try_except_TypeError
    (stream ← client_generate payload;
     mret (_debug_stream self stream))
    (fun exc =>
       if negb (contains (lit "suffix") (exn_message exc))
       then lift (Raise exc)
       else
         fallback_payload ←
           lift (build_request_payload st self lines line character filetype true);
         _ ← _debug_log self "payload_fallback" fallback_payload;
         stream ← client_generate fallback_payload;
         mret (_debug_stream self stream)).

End Complete.

Arguments World {backend}.
Arguments world_backend {backend}.
Arguments submitted {backend}.
Arguments log_accepts {backend}.
Arguments log_records {backend}.
Arguments client_generate {backend}.
Arguments _debug_log {backend}.
Arguments _debug_stream {backend}.
Arguments complete {backend}.

(** * Definitions used in the statements *)

(** The splitter in the words of its specification, at a cursor that is
    already inside the document: [line] and [character] are positions. *)
Module SplitterSpec.

Fixpoint leading_run (chars : list ascii) (s : str) : str :=
  match s with
  | c :: s' => if bool_decide (c ∈ chars) then c :: leading_run chars s' else []
  | [] => []
  end.

Definition split (document : list str) (line character : nat)
  : str * str * str :=
  let current_line := default [] (document !! line) in
  let left := take character current_line in
  let right := drop character current_line in
  let indent := leading_run [space; tab] left in
  let before := join [nl] (take line document) in
  let prefix := if nonempty before then before ++ [nl] ++ left else left in
  let suffix :=
    if bool_decide (S line < length document)%nat
    then right ++ [nl] ++ join [nl] (drop (S line) document)
    else right in
  (prefix, suffix, indent).

End SplitterSpec.

(** The clamped cursor, as natural numbers. For an empty document the
    line formula gives 0 as well. *)
Definition clamped_line (lines : list str) (line : Z) : nat :=
  Z.to_nat (Z.max 0 (Z.min line (len lines - 1))).

Definition clamped_character (lines : list str) (line character : Z) : nat :=
  Z.to_nat (Z.max 0 (Z.min character
              (len (default [] (lines !! clamped_line lines line))))).

(** The windower looks at one empty line in place of an empty document. *)
Definition windowed_lines (lines : list str) : list str :=
  if bool_decide (lines = []) then [[]] else lines.

(** The payload before a prompt is put in. *)
Definition base_payload (self : engine) : gmap string pyval :=
  <["options" := VDict (options self)]>
    (<["stream" := VBool true]> (<["model" := VStr (model self)]> ∅)).

(** Example inputs, after [payload_debug_demo.py]: the engine it builds,
    the options left in its dict, and its second document. *)
Definition demo_engine : engine :=
  {| model := lit "qwen2.5-coder:3b"; client := lit "http://localhost:11434";
     options := 1%positive;
     fim_enabled := VBool true; fim_mode := VStr (lit "auto");
     context_lines_before := 20; context_lines_after := 20;
     max_prefix_chars := 4000; max_suffix_chars := 2000;
     debug := false;
     debug_log_file := VStr (lit "/tmp/ollama-copilot-debug.log") |}.

Definition demo_store : store :=
  {[ 1%positive :=
       {[ "temperature"%string := VFloat (FFinite 1 10);
          "top_p"%string := VFloat (FFinite 9 10);
          "num_predict"%string := VInt 128;
          "num_ctx"%string := VInt 8192 ]} ]}.

Definition suffix_lines : list str :=
  [lit "local function build(x, y)"; lit "  local result = x ";
   lit "  return result"; lit "end"].

(** The same engine with another FIM setting. *)
Definition with_fim (enabled : pyval) (mode : pyval) (self : engine) : engine :=
  {| model := model self; client := client self; options := options self;
     fim_enabled := enabled; fim_mode := mode;
     context_lines_before := context_lines_before self;
     context_lines_after := context_lines_after self;
     max_prefix_chars := max_prefix_chars self;
     max_suffix_chars := max_suffix_chars self;
     debug := debug self; debug_log_file := debug_log_file self |}.

(** The text [_centered_prefix] returns, as a function of its three
    variable sections. *)
Definition instruction_block
    (filetype indent before_text line_prefix line_suffix : str) : str :=
  lit "[AUTOCOMPLETE_TASK]" ++ [nl]
  ++ lit "Return ONLY the exact text to insert at <CURSOR>." ++ [nl]
  ++ lit "Do not restate existing text. Do not explain. Do not use markdown fences." ++ [nl]
  ++ lit "filetype=" ++ (if nonempty filetype then filetype else lit "plain") ++ [nl]
  ++ lit "indentation=" ++ json_dumps indent ++ [nl]
  ++ lit "[PREFIX_BEFORE_CURSOR]" ++ [nl]
  ++ before_text ++ [nl]
  ++ lit "[CURRENT_LINE_PREFIX]" ++ [nl]
  ++ line_prefix ++ [nl]
  ++ lit "[CURRENT_LINE_SUFFIX]" ++ [nl]
  ++ line_suffix ++ [nl]
  ++ lit "[INSERT_AT_CURSOR]" ++ [nl].

(** The before-context of the block: the joined lines, cut from the left to
    [max_prefix_chars] when longer. *)
Definition window_before_text (self : engine) (lines : list str) (line : Z)
  : str :=
  let doc := windowed_lines lines in
  let text :=
    join [nl] (before_lines self doc (Z.of_nat (clamped_line doc line))) in
  if max_prefix_chars self <? len text
  then slice_from text (- max_prefix_chars self)
  else text.

(** The engine built from the options [{"max_prefix_chars": 0}]. *)
Definition zero_prefix_options : store :=
  {[ 1%positive := {[ "max_prefix_chars"%string := VInt 0 ]} ]}.

Definition zero_prefix_engine : engine :=
  {| model := lit "m"; client := lit "http://localhost:11434";
     options := 1%positive;
     fim_enabled := VBool true; fim_mode := VStr (lit "auto");
     context_lines_before := 80; context_lines_after := 40;
     max_prefix_chars := 0; max_suffix_chars := 3000;
     debug := false;
     debug_log_file := VStr (lit "/tmp/ollama-copilot-debug.log") |}.

(** What the proofs use of a marker: it starts with the character [<], has
    no other [<], and is 14 characters long. *)
Definition is_marker (m : str) : Prop :=
  ∃ m', m = "<"%char :: m' ∧ ("<"%char ∉ m') ∧ length m = 14%nat.

(** An engine in manual-FIM mode. *)
Definition manual_engine : engine :=
  with_fim (VBool true) (VStr (lit "manual")) demo_engine.

Definition with_context_lines_after (n : Z) (self : engine) : engine :=
  {| model := model self; client := client self; options := options self;
     fim_enabled := fim_enabled self; fim_mode := fim_mode self;
     context_lines_before := context_lines_before self;
     context_lines_after := n;
     max_prefix_chars := max_prefix_chars self;
     max_suffix_chars := max_suffix_chars self;
     debug := debug self; debug_log_file := debug_log_file self |}.

(** The options of [payload_debug_demo.py]. *)
Definition demo_options : store :=
  {[ 1%positive :=
       {[ "temperature"%string := VFloat (FFinite 1 10);
          "top_p"%string := VFloat (FFinite 9 10);
          "num_predict"%string := VInt 128;
          "num_ctx"%string := VInt 8192;
          "fim_enabled"%string := VBool true;
          "fim_mode"%string := VStr (lit "auto");
          "context_lines_before"%string := VInt 20;
          "context_lines_after"%string := VInt 20;
          "max_prefix_chars"%string := VInt 4000;
          "max_suffix_chars"%string := VInt 2000 ]} ]}.

(** The error that makes [complete] retry: a TypeError whose message holds
    the word "suffix". *)
Definition suffix_type_error (e : exn) : bool :=
  match exn_class_of e with
  | TypeError => contains (lit "suffix") (exn_message e)
  | _ => false
  end.

(** A backend whose client predates the [suffix] argument: [generate]
    raises a TypeError on a payload with a ["suffix"] entry and answers any
    other payload with a one-chunk stream. Its state counts the calls. *)
Definition old_client (payload : gmap string pyval) : M nat (list chunk) :=
  fun calls =>
    if bool_decide (is_Some (payload !! "suffix"))
    then (Raise (Exn TypeError
                   (lit "Client.generate() got an unexpected keyword argument 'suffix'")),
          S calls)
    else (Ok [ChunkDict {[ "response"%string := VStr (lit "x") ]}], S calls).

Definition fresh_world : world nat :=
  {| world_backend := 0%nat; submitted := [];
     log_accepts := fun _ _ => true; log_records := [] |}.

(** The same engine with another debug setting. *)
Definition with_debug (on : bool) (file : pyval) (self : engine) : engine :=
  {| model := model self; client := client self; options := options self;
     fim_enabled := fim_enabled self; fim_mode := fim_mode self;
     context_lines_before := context_lines_before self;
     context_lines_after := context_lines_after self;
     max_prefix_chars := max_prefix_chars self;
     max_suffix_chars := max_suffix_chars self;
     debug := on; debug_log_file := file |}.

(** The world after [complete] has left the backend in state [b] and has
    submitted the payloads [sent]: with debugging on, one record per
    payload whose write goes through, the first under the event "payload"
    and the second under "payload_fallback". *)
Definition after_complete {B} (self : engine) (w : world B) (b : B)
    (sent : list (gmap string pyval)) : world B :=
  {| world_backend := b;
     submitted := submitted w ++ sent;
     log_accepts := log_accepts w;
     log_records :=
       log_records w
       ++ (if debug self
           then List.filter (λ record, log_accepts w record.1 record.2)
                  (zip ["payload"; "payload_fallback"]%string sent)
           else []) |}.

(** The engine [__init__] builds when no option is given, in the
    environment [env], with its options dict at [l]. *)
Definition default_engine (env : gmap string str) (model_name url : str)
    (l : loc) : engine :=
  {| model := model_name; client := url; options := l;
     fim_enabled := VBool true; fim_mode := VStr (lit "auto");
     context_lines_before := 80; context_lines_after := 40;
     max_prefix_chars := 8000; max_suffix_chars := 3000;
     debug := bool_decide (getenv env "OLLAMA_COPILOT_DEBUG" [] = lit "1");
     debug_log_file :=
       VStr (getenv env "OLLAMA_COPILOT_DEBUG_LOG"
               (lit "/tmp/ollama-copilot-debug.log")) |}.

(** * Properties *)

(** ** Slices *)

Section SliceFacts.
Context {A : Type}.
Implicit Types l : list A.

Lemma slice_bound_nonneg n i :
  0 <= i -> slice_bound n i = Nat.min (Z.to_nat i) n.
Proof.
  intros Hi. unfold slice_bound.
  destruct (Z.ltb_spec i 0); lia.
Qed.

Lemma slice_bound_neg n i :
  i < 0 -> slice_bound n i = (n - Z.to_nat (- i))%nat.
Proof.
  intros Hi. unfold slice_bound.
  destruct (Z.ltb_spec i 0); lia.
Qed.

Lemma slice_bound_le n i : (slice_bound n i <= n)%nat.
Proof.
  unfold slice_bound. destruct (Z.ltb_spec i 0); lia.
Qed.

Lemma slice_to_nonneg l j : 0 <= j -> slice_to l j = take (Z.to_nat j) l.
Proof.
  intros Hj. unfold slice_to. rewrite slice_bound_nonneg by done.
  destruct (Nat.le_gt_cases (Z.to_nat j) (length l)).
  - by rewrite Nat.min_l.
  - rewrite Nat.min_r by lia. by rewrite !take_ge by lia.
Qed.

Lemma slice_from_nonneg l i : 0 <= i -> slice_from l i = drop (Z.to_nat i) l.
Proof.
  intros Hi. unfold slice_from. rewrite slice_bound_nonneg by done.
  destruct (Nat.le_gt_cases (Z.to_nat i) (length l)).
  - by rewrite Nat.min_l.
  - rewrite Nat.min_r by lia. by rewrite !drop_ge by lia.
Qed.

Lemma slice_to_from l i : slice_to l i ++ slice_from l i = l.
Proof. apply take_drop. Qed.

Lemma slice_nonneg l i j :
  0 <= i -> 0 <= j ->
  slice l i j = drop (Z.to_nat i) (take (Z.to_nat j) l).
Proof.
  intros Hi Hj. unfold slice. rewrite !slice_bound_nonneg by done.
  set (a := Z.to_nat i). set (b := Z.to_nat j). set (n := length l).
  destruct (Nat.le_gt_cases b n) as [Hb|Hb].
  - rewrite (Nat.min_l b n) by done.
    destruct (Nat.le_gt_cases a n) as [Ha|Ha].
    + rewrite (Nat.min_l a n) by done.
      destruct (Nat.le_gt_cases a b) as [Hab|Hab].
      * rewrite take_drop_commute. by replace (a + (b - a))%nat with b by lia.
      * replace (b - a)%nat with 0%nat by lia. simpl.
        symmetry. apply drop_ge. rewrite length_take. lia.
    + rewrite (Nat.min_r a n) by lia.
      replace (b - n)%nat with 0%nat by lia. simpl.
      symmetry. apply drop_ge. rewrite length_take. lia.
  - rewrite (Nat.min_r b n) by lia. rewrite (take_ge l b) by (fold n; lia).
    destruct (Nat.le_gt_cases a n) as [Ha|Ha].
    + rewrite (Nat.min_l a n) by done.
      apply take_ge. rewrite length_drop. fold n. lia.
    + rewrite (Nat.min_r a n) by lia.
      rewrite !drop_ge by (fold n; lia). by rewrite take_nil.
Qed.

Lemma length_slice_to l j : 0 <= j -> len (slice_to l j) <= j.
Proof.
  intros Hj. unfold len. rewrite slice_to_nonneg by done.
  rewrite length_take. lia.
Qed.

Lemma length_slice_from_last l m : 1 <= m -> len (slice_from l (- m)) <= m.
Proof.
  intros Hm. unfold len, slice_from.
  rewrite slice_bound_neg by lia. rewrite length_drop. lia.
Qed.

Lemma slice_from_zero l : slice_from l 0 = l.
Proof. by rewrite slice_from_nonneg. Qed.

End SliceFacts.

(** ** The cursor splitter *)

Lemma lstrip_leading_run chars (s : str) :
  SplitterSpec.leading_run chars s ++ lstrip chars s = s.
Proof.
  induction s as [|c s IH]; simpl; [done|].
  case_bool_decide; simpl; [by rewrite IH | done].
Qed.

Lemma indent_is_leading_run chars (left : str) :
  slice_to left (len left - len (lstrip chars left))
  = SplitterSpec.leading_run chars left.
Proof.
  pose proof (lstrip_leading_run chars left) as Hsplit.
  remember (SplitterSpec.leading_run chars left) as run eqn:Hrun.
  remember (lstrip chars left) as rest eqn:Hrest.
  clear Hrun Hrest. subst left.
  unfold len. rewrite length_app.
  replace (Z.of_nat (length run + length rest) - Z.of_nat (length rest))
    with (Z.of_nat (length run)) by lia.
  rewrite slice_to_nonneg by lia. rewrite Nat2Z.id.
  by rewrite take_app_length.
Qed.

Lemma index_nonneg {A} (l : list A) (i : Z) :
  0 <= i -> index l i = l !! Z.to_nat i.
Proof. intros Hi. unfold index. destruct (Z.ltb_spec i 0); [lia | done]. Qed.

(** The line the code settles on: [max(0, min(line, len(lines) - 1))]. *)
Lemma bounded_line_in_range (lines : list str) (line : Z) :
  lines ≠ [] ->
  0 <= Z.max 0 (Z.min line (len lines - 1)) < len lines.
Proof.
  intros Hne. unfold len. destruct lines; [done|]. simpl length. lia.
Qed.

Lemma clamped_line_lt (lines : list str) (line : Z) :
  lines ≠ [] -> (clamped_line lines line < length lines)%nat.
Proof.
  intros Hne. pose proof (bounded_line_in_range lines line Hne).
  unfold clamped_line, len in *. lia.
Qed.

Lemma split_prefix_suffix_clamped (lines : list str) (line character : Z) :
  _split_prefix_suffix lines line character
  = Ok (SplitterSpec.split lines (clamped_line lines line)
          (clamped_character lines line character)).
Proof.
  unfold _split_prefix_suffix, clamped_character.
  destruct (decide (lines = [])) as [->|Hne].
  - simpl.
    replace (Z.max 0 (Z.min character (len []))) with 0
      by (unfold len; simpl; lia).
    assert (clamped_line [] line = 0%nat) as ->
      by (unfold clamped_line, len; simpl; lia).
    reflexivity.
  - rewrite (bool_decide_eq_true_2 (lines ≠ [])) by done.
    pose proof (bounded_line_in_range lines line Hne) as Hbl.
    pose proof (clamped_line_lt lines line Hne) as Hlt.
    unfold clamped_line in *.
    set (bl := Z.max 0 (Z.min line (len lines - 1))) in *.
    destruct (lookup_lt_is_Some_2 lines (Z.to_nat bl) Hlt) as [cur Hcur].
    rewrite index_nonneg by lia. rewrite Hcur. simpl.
    set (bc := Z.max 0 (Z.min character (len cur))).
    assert (0 <= bc <= len cur) as Hbc by (unfold bc, len; lia).
    unfold SplitterSpec.split. rewrite Hcur. simpl.
    pose proof (indent_is_leading_run [space; tab] (slice_to cur bc)) as Hind.
    rewrite Hind. clear Hind.
    rewrite (slice_to_nonneg cur bc), (slice_from_nonneg cur bc) by lia.
    rewrite (slice_to_nonneg lines bl) by lia.
    rewrite (slice_from_nonneg lines (bl + 1)) by lia.
    replace (Z.to_nat (bl + 1)) with (S (Z.to_nat bl)) by lia.
    f_equal. f_equal. f_equal.
    destruct (Z.ltb_spec (bl + 1) (len lines)); case_bool_decide;
      unfold len in *; try lia; [|done].
    by rewrite <- app_assoc.
Qed.

(** C7: the splitter never raises; whatever [line] and [character] are, it
    returns the split at the line clamped into [0, len(lines) - 1] (line 0
    and an empty current line for an empty document) and the character
    clamped into [0, len(current_line)]. *)
Theorem split_prefix_suffix_total (lines : list str) (line character : Z) :
  ∃ (bounded_line bounded_character : nat) (current_line : str),
    Z.of_nat bounded_line =
      (if bool_decide (lines = []) then 0
       else Z.max 0 (Z.min line (len lines - 1)))
    ∧ (bounded_line <= length lines - 1)%nat
    ∧ current_line =
        (if bool_decide (lines = []) then []
         else default [] (lines !! bounded_line))
    ∧ (if bool_decide (lines = []) then True
       else lines !! bounded_line = Some current_line)
    ∧ Z.of_nat bounded_character
      = Z.max 0 (Z.min character (len current_line))
    ∧ (bounded_character <= length current_line)%nat
    ∧ _split_prefix_suffix lines line character
      = Ok (SplitterSpec.split lines bounded_line bounded_character).
Proof.
  exists (clamped_line lines line), (clamped_character lines line character),
    (default [] (lines !! clamped_line lines line)).
  rewrite split_prefix_suffix_clamped.
  unfold clamped_character.
  set (cur := default [] (lines !! clamped_line lines line)).
  destruct (decide (lines = [])) as [->|Hne].
  - simpl. unfold cur, clamped_line, len. simpl. repeat split; lia.
  - rewrite !(bool_decide_eq_false_2 (lines = [])) by done.
    pose proof (clamped_line_lt lines line Hne) as Hlt.
    destruct (lookup_lt_is_Some_2 lines _ Hlt) as [c Hc].
    assert (cur = c) as Hcur by (unfold cur; by rewrite Hc).
    repeat split; try done.
    + unfold clamped_line, len in *. lia.
    + lia.
    + congruence.
    + unfold len. lia.
    + unfold len. lia.
Qed.

(** *** Putting the two halves back together *)

Lemma join_cons sep (p : str) (rest : list str) :
  rest ≠ [] -> join sep (p :: rest) = p ++ sep ++ join sep rest.
Proof. by destruct rest. Qed.

Lemma join_app sep (l1 l2 : list str) :
  l1 ≠ [] -> l2 ≠ [] ->
  join sep (l1 ++ l2) = join sep l1 ++ sep ++ join sep l2.
Proof.
  intros H1 H2. induction l1 as [|p l1 IH]; [done|].
  destruct l1 as [|q l1].
  - simpl app. by rewrite join_cons.
  - change ((p :: q :: l1) ++ l2) with (p :: ((q :: l1) ++ l2)).
    rewrite join_cons by done. rewrite IH by done.
    rewrite (join_cons sep p (q :: l1)) by done.
    by rewrite <- !app_assoc.
Qed.

(** The text before the cursor line is empty in two cases only: there is no
    line before it, or there is exactly one and it is empty. *)
Lemma join_nl_empty (l : list str) :
  join [nl] l = [] <-> l = [] \/ l = [[]].
Proof.
  split.
  - destruct l as [|p [|q l]]; simpl; [by left | | ].
    + intros ->. by right.
    + intros H. by destruct p.
  - by intros [-> | ->].
Qed.

(** Away from that second case the two halves give the document back. *)
Lemma split_prefix_suffix_reconstructs (lines : list str) (line character : Z)
    (prefix suffix indent : str) :
  _split_prefix_suffix lines line character = Ok (prefix, suffix, indent) ->
  ¬ (clamped_line lines line = 1%nat ∧ lines !! 0%nat = Some []) ->
  prefix ++ suffix = join [nl] lines.
Proof.
  rewrite split_prefix_suffix_clamped. unfold SplitterSpec.split.
  set (bl := clamped_line lines line).
  set (bc := clamped_character lines line character).
  intros Heq Hnot. injection Heq as <- <- _.
  destruct (decide (lines = [])) as [->|Hne].
  { assert (bl = 0%nat) as -> by (unfold bl, clamped_line, len; simpl; lia).
    simpl. by rewrite take_nil, drop_nil. }
  pose proof (clamped_line_lt lines line Hne) as Hlt. fold bl in Hlt.
  destruct (lookup_lt_is_Some_2 lines bl Hlt) as [cur Hcur].
  rewrite Hcur. simpl default.
  pose proof (take_drop_middle lines bl cur Hcur) as Hmid.
  assert (join [nl] lines
          = join [nl] (take bl lines ++ cur :: drop (S bl) lines)) as ->
    by (by rewrite Hmid).
  clear Hmid.
  remember (drop (S bl) lines) as rest eqn:Hrest.
  assert (rest = [] <-> ¬ (S bl < length lines)%nat) as Hnil.
  { subst rest. split.
    - intros Hd%(f_equal length). rewrite length_drop in Hd. simpl in Hd. lia.
    - intros. apply drop_ge. lia. }
  clear Hrest.
  destruct (decide (take bl lines = [])) as [Hbefore|Hbefore].
  - rewrite Hbefore.
    case_bool_decide as Hafter; destruct rest as [|r rest];
      try (exfalso; intuition discriminate); simpl.
    + by rewrite app_assoc, take_drop.
    + by rewrite take_drop.
  - assert (join [nl] (take bl lines) ≠ []) as Hjoin.
    { intros [Hj|Hj]%join_nl_empty; [done|].
      apply Hnot. split.
      - apply (f_equal length) in Hj. rewrite length_take in Hj.
        simpl in Hj. lia.
      - assert (take bl lines !! 0%nat = Some []) as H0 by (by rewrite Hj).
        rewrite lookup_take_Some in H0. tauto. }
    rewrite join_app by done.
    destruct (join [nl] (take bl lines)) as [|c before]; [done|].
    case_bool_decide as Hafter; destruct rest as [|r rest];
      try (exfalso; intuition discriminate); simpl.
    + rewrite <- !app_assoc. do 2 f_equal. simpl. f_equal.
      by rewrite app_assoc, take_drop.
    + rewrite <- !app_assoc. do 2 f_equal. simpl. f_equal.
      by rewrite take_drop.
Qed.

(** C1 fails on the code: with an empty first line and the cursor on the
    second line, the text before the cursor line is the empty string, the
    splitter takes it for "no line before" and leaves the newline out. Here
    the document has an empty line and then the line "x", and the cursor is
    at line 1, character 0: the two halves give "x", the document is a
    newline followed by "x". *)
Theorem split_prefix_suffix_loses_newline :
  _split_prefix_suffix [[]; lit "x"] 1 0 = Ok ([], lit "x", [])
  ∧ join [nl] [[]; lit "x"] = nl :: lit "x"
  ∧ ([] : str) ++ lit "x" ≠ join [nl] [[]; lit "x"].
Proof. repeat split. discriminate. Qed.

(** ** The request builder *)

Lemma windowed_lines_nonempty lines : windowed_lines lines ≠ [].
Proof. unfold windowed_lines. by case_bool_decide. Qed.

Lemma centered_prefix_current_line (lines : list str) (line : Z) :
  ∃ current_line,
    windowed_lines lines !! clamped_line (windowed_lines lines) line
      = Some current_line
    ∧ index (windowed_lines lines)
        (Z.max 0 (Z.min line (len (windowed_lines lines) - 1)))
      = Some current_line.
Proof.
  pose proof (windowed_lines_nonempty lines) as Hne.
  pose proof (clamped_line_lt _ line Hne) as Hlt.
  destruct (lookup_lt_is_Some_2 _ _ Hlt) as [cur Hcur].
  exists cur. split; [done|].
  rewrite index_nonneg by lia. exact Hcur.
Qed.

Lemma centered_prefix_total self lines line character filetype indent :
  ∃ block, _centered_prefix self lines line character filetype indent = Ok block.
Proof.
  unfold _centered_prefix. fold (windowed_lines lines).
  destruct (centered_prefix_current_line lines line) as (cur & _ & ->).
  simpl. eauto.
Qed.

Lemma build_request_payload_cases st self lines line character filetype force :
  ∃ prefix suffix indent centered,
    _split_prefix_suffix lines line character = Ok (prefix, suffix, indent)
    ∧ _centered_prefix self lines line character filetype indent = Ok centered
    ∧ build_request_payload st self lines line character filetype force
      = Ok (if use_template_fim st self force then
              <["suffix" := VStr (slice_to suffix (max_suffix_chars self))]>
                (<["prompt" := VStr (slice_from prefix (- max_prefix_chars self))]>
                   (base_payload self))
            else if truthy st (fim_enabled self) then
              <["prompt" := VStr (_manual_fim_prompt self
                                    (slice_from prefix (- max_prefix_chars self))
                                    suffix)]> (base_payload self)
            else
              <["prompt" := VStr (centered ++ [nl])]> (base_payload self)).
Proof.
  unfold build_request_payload.
  rewrite split_prefix_suffix_clamped.
  destruct (SplitterSpec.split _ _ _) as [[prefix suffix] indent].
  destruct (centered_prefix_total self lines line character filetype indent)
    as [centered Hc].
  exists prefix, suffix, indent, centered.
  split; [done|]. split; [done|].
  simpl. rewrite Hc. simpl. unfold base_payload.
  by repeat case_match.
Qed.

(** C2: every call builds its payload by exactly one of three strategies.
    The native branch, with its two fields ["prompt"] and ["suffix"], is
    taken exactly when [fim_enabled] is true, [force_manual_fim] is false and
    [fim_mode] is "auto" or "template"; the payload has a ["suffix"] key
    exactly in that case; otherwise the prompt is the manual-FIM encoding
    when [fim_enabled] is true and the instruction block followed by a
    newline when it is false. *)
Theorem build_request_payload_strategy st self lines line character filetype
    force_manual_fim :
  let native :=
    truthy st (fim_enabled self) = true ∧ force_manual_fim = false
    ∧ (fim_mode self = VStr (lit "auto")
       ∨ fim_mode self = VStr (lit "template")) in
  ∃ prefix suffix indent centered payload,
    _split_prefix_suffix lines line character = Ok (prefix, suffix, indent)
    ∧ _centered_prefix self lines line character filetype indent = Ok centered
    ∧ build_request_payload st self lines line character filetype
        force_manual_fim = Ok payload
    ∧ (is_Some (payload !! "suffix") ↔ native)
    ∧ (native →
       payload =
         <["suffix" := VStr (slice_to suffix (max_suffix_chars self))]>
           (<["prompt" := VStr (slice_from prefix (- max_prefix_chars self))]>
              (base_payload self)))
    ∧ (¬ native → truthy st (fim_enabled self) = true →
       payload =
         <["prompt" := VStr (_manual_fim_prompt self
                               (slice_from prefix (- max_prefix_chars self))
                               suffix)]> (base_payload self))
    ∧ (truthy st (fim_enabled self) = false →
       payload = <["prompt" := VStr (centered ++ [nl])]> (base_payload self)).
Proof.
  intros native.
  destruct (build_request_payload_cases st self lines line character filetype
              force_manual_fim)
    as (prefix & suffix & indent & centered & Hs & Hc & Hb).
  eexists prefix, suffix, indent, centered, _.
  split; [exact Hs|]. split; [exact Hc|]. split; [exact Hb|].
  assert (use_template_fim st self force_manual_fim = true ↔ native) as Hnative.
  { unfold use_template_fim, native.
    rewrite !andb_true_iff, orb_true_iff, negb_true_iff, !bool_decide_eq_true.
    tauto. }
  destruct (use_template_fim st self force_manual_fim) eqn:Huse.
  - assert native as Hn by (by apply Hnative).
    split; [|split; [done|split]].
    + split; [done|]. intros _. rewrite lookup_insert_eq. eauto.
    + intros Hnn. by destruct Hnn.
    + intros Hf. destruct Hn as [Ht _]. congruence.
  - assert (¬ native) as Hn by (intros H%Hnative; discriminate).
    assert (∀ q, ¬ is_Some ((<["prompt" := q]> (base_payload self)) !! "suffix"))
      as Hnokey.
    { intros q [v Hv]. unfold base_payload in Hv.
      rewrite !lookup_insert_ne in Hv by done. by rewrite lookup_empty in Hv. }
    destruct (truthy st (fim_enabled self)) eqn:Ht.
    + split; [|split; [done|split; [done|discriminate]]].
      split; [|done]. intros H. by apply Hnokey in H.
    + split; [|split; [done|split; [discriminate|done]]].
      split; [|done]. intros H. by apply Hnokey in H.
Qed.

Lemma build_request_payload_strategy_witness :
  ∃ payload,
    build_request_payload demo_store demo_engine suffix_lines 1 17 (lit "lua")
      false = Ok payload
    ∧ is_Some (payload !! "suffix").
Proof.
  destruct (build_request_payload_strategy demo_store demo_engine suffix_lines
              1 17 (lit "lua") false)
    as (prefix & suffix & indent & centered & payload & _ & _ & Hb & Hiff & _).
  exists payload. split; [exact Hb|].
  apply Hiff. split; [reflexivity|]. split; [reflexivity|]. by left.
Defined.

(** ** Occurrences of a substring *)

Lemma starts_with_iff (sub s : str) :
  starts_with sub s = true <-> ∃ t, s = sub ++ t.
Proof.
  revert s. induction sub as [|a sub IH]; intros s; simpl.
  - split; eauto.
  - destruct s as [|b s].
    + split; [done|]. by intros [t Ht].
    + rewrite andb_true_iff, bool_decide_eq_true, IH. split.
      * intros [-> [t ->]]. eauto.
      * intros [t Ht]. injection Ht as -> ->. eauto.
Qed.

Lemma elem_of_occurrences_from (pos : nat) (sub s : str) (i : nat) :
  i ∈ occurrences_from pos sub s
  <-> ∃ a t, s = a ++ sub ++ t ∧ i = (pos + length a)%nat.
Proof.
  revert pos. induction s as [|c s IH]; intros pos.
  - simpl. rewrite app_nil_r. split.
    + destruct (starts_with sub []) eqn:Hs; [|by intros ?%elem_of_nil].
      intros ->%list_elem_of_singleton.
      apply starts_with_iff in Hs as [t Ht].
      exists [], t. simpl. split; [done|lia].
    + intros (a & t & Heq & ->).
      destruct a; [|done]. simpl in Heq.
      assert (starts_with sub [] = true) as -> by (apply starts_with_iff; eauto).
      apply list_elem_of_singleton. simpl. lia.
  - simpl. rewrite elem_of_app, IH. split.
    + intros [Hhere | (a & t & -> & ->)].
      * destruct (starts_with sub (c :: s)) eqn:Hs; [|by apply elem_of_nil in Hhere].
        apply list_elem_of_singleton in Hhere as ->.
        apply starts_with_iff in Hs as [t Ht].
        exists [], t. simpl. split; [done|lia].
      * exists (c :: a), t. simpl. split; [done|lia].
    + intros (a & t & Heq & ->). destruct a as [|c' a].
      * left. simpl in Heq.
        assert (starts_with sub (c :: s) = true) as ->
          by (apply starts_with_iff; eauto).
        apply list_elem_of_singleton. simpl. lia.
      * right. simpl in Heq. injection Heq as -> ->.
        exists a, t. split; [done|]. simpl. lia.
Qed.

Lemma elem_of_occurrences (sub s : str) (i : nat) :
  i ∈ occurrences sub s <-> ∃ a t, s = a ++ sub ++ t ∧ i = length a.
Proof. unfold occurrences. by rewrite elem_of_occurrences_from. Qed.

Lemma occurrences_from_NoDup (pos : nat) (sub s : str) :
  NoDup (occurrences_from pos sub s).
Proof.
  revert pos. induction s as [|c s IH]; intros pos; simpl.
  - rewrite app_nil_r. destruct (starts_with sub []).
    + apply NoDup_singleton.
    + apply NoDup_nil_2.
  - destruct (starts_with sub (c :: s)); simpl; [|apply IH].
    apply NoDup_cons. split; [|apply IH].
    intros (a & t & _ & Hpos)%elem_of_occurrences_from. lia.
Qed.

Lemma occurrences_singleton (sub s : str) (p : nat) :
  (∀ i, i ∈ occurrences sub s <-> i = p) -> occurrences sub s = [p].
Proof.
  intros Hiff. apply Permutation_singleton_r.
  apply NoDup_Permutation.
  - apply occurrences_from_NoDup.
  - apply NoDup_singleton.
  - intros i. rewrite Hiff. by rewrite list_elem_of_singleton.
Qed.

Lemma contains_iff (sub s : str) :
  contains sub s = true <-> ∃ a t, s = a ++ sub ++ t.
Proof.
  unfold contains. split.
  - destruct (occurrences sub s) as [|i l] eqn:Ho; [done|]. intros _.
    assert (i ∈ occurrences sub s) as Hi by (rewrite Ho; apply list_elem_of_here).
    apply elem_of_occurrences in Hi as (a & t & -> & _). eauto.
  - intros (a & t & ->).
    assert (length a ∈ occurrences sub (a ++ sub ++ t)) as Hi
      by (apply elem_of_occurrences; eauto).
    destruct (occurrences sub (a ++ sub ++ t)); [|done].
    by apply elem_of_nil in Hi.
Qed.

Lemma contains_middle (sub s a t : str) :
  s = a ++ sub ++ t -> contains sub s = true.
Proof. intros ->. apply contains_iff. eauto. Qed.

(** ** The instruction block *)

Lemma centered_prefix_eq self lines line character filetype indent :
  let doc := windowed_lines lines in
  let current_line := default [] (doc !! clamped_line doc line) in
  let bounded_character :=
    Z.to_nat (Z.max 0 (Z.min character (len current_line))) in
  _centered_prefix self lines line character filetype indent
  = Ok (instruction_block filetype indent
          (window_before_text self lines line)
          (take bounded_character current_line)
          (drop bounded_character current_line)).
Proof.
  intros doc current_line bounded_character.
  unfold _centered_prefix. fold (windowed_lines lines). fold doc.
  destruct (centered_prefix_current_line lines line) as (cur & Hcur & Hidx).
  fold doc in Hcur, Hidx. rewrite Hidx.
  unfold of_index, mbind, result_bind. cbv beta iota.
  assert (current_line = cur) as Hc by (unfold current_line; by rewrite Hcur).
  unfold bounded_character. rewrite Hc.
  rewrite (slice_to_nonneg cur), (slice_from_nonneg cur) by lia.
  unfold window_before_text. fold doc.
  unfold clamped_line. rewrite Z2Nat.id by lia.
  reflexivity.
Qed.

(** The claim of a single trailing newline fails: the block ends in a
    newline of its own and the builder appends another one. *)
Lemma windowed_prompt_not_one_newline :
  ∃ payload prompt,
    build_request_payload demo_store
      (with_fim (VBool false) (VStr (lit "auto")) demo_engine)
      suffix_lines 1 17 (lit "lua") false = Ok payload
    ∧ payload !! "prompt" = Some (VStr prompt)
    ∧ trailing_newlines prompt ≠ 1%nat.
Proof.
  eexists _, _. split; [vm_compute; reflexivity|].
  split; [vm_compute; reflexivity|].
  vm_compute. discriminate.
Qed.

(** C6, as the code has it: with [fim_enabled] false the prompt ends with
    the [INSERT_AT_CURSOR] marker followed by exactly two newlines and
    nothing else, and it contains the four section markers. *)
Theorem windowed_prompt_shape st self lines line character filetype
    force_manual_fim :
  truthy st (fim_enabled self) = false ->
  ∃ payload body,
    build_request_payload st self lines line character filetype
      force_manual_fim = Ok payload
    ∧ payload !! "prompt"
      = Some (VStr (body ++ lit "[INSERT_AT_CURSOR]" ++ [nl; nl]))
    ∧ trailing_newlines (body ++ lit "[INSERT_AT_CURSOR]" ++ [nl; nl]) = 2%nat
    ∧ contains (lit "[PREFIX_BEFORE_CURSOR]") body = true
    ∧ contains (lit "[CURRENT_LINE_PREFIX]") body = true
    ∧ contains (lit "[CURRENT_LINE_SUFFIX]") body = true
    ∧ contains (lit "[INSERT_AT_CURSOR]")
        (body ++ lit "[INSERT_AT_CURSOR]" ++ [nl; nl]) = true.
Proof.
  intros Hoff.
  destruct (build_request_payload_cases st self lines line character filetype
              force_manual_fim)
    as (prefix & suffix & indent & centered & _ & Hc & Hb).
  assert (use_template_fim st self force_manual_fim = false) as Huse
    by (unfold use_template_fim; by rewrite Hoff).
  rewrite Huse, Hoff in Hb.
  rewrite centered_prefix_eq in Hc. injection Hc as <-.
  set (before_text := window_before_text self lines line) in *.
  set (cur := default [] (_ !! _)) in *.
  set (bc := Z.to_nat _) in *.
  set (head :=
    lit "[AUTOCOMPLETE_TASK]" ++ [nl]
    ++ lit "Return ONLY the exact text to insert at <CURSOR>." ++ [nl]
    ++ lit "Do not restate existing text. Do not explain. Do not use markdown fences." ++ [nl]
    ++ lit "filetype=" ++ (if nonempty filetype then filetype else lit "plain") ++ [nl]
    ++ lit "indentation=" ++ json_dumps indent ++ [nl]).
  exists (<["prompt" := VStr (instruction_block filetype indent before_text
                                (take bc cur) (drop bc cur) ++ [nl])]>
            (base_payload self)).
  exists (head ++ lit "[PREFIX_BEFORE_CURSOR]" ++ [nl]
          ++ before_text ++ [nl]
          ++ lit "[CURRENT_LINE_PREFIX]" ++ [nl]
          ++ take bc cur ++ [nl]
          ++ lit "[CURRENT_LINE_SUFFIX]" ++ [nl]
          ++ drop bc cur ++ [nl]).
  split; [exact Hb|]. split; [|split; [|split; [|split; [|split]]]].
  - rewrite lookup_insert_eq. do 2 f_equal.
    unfold instruction_block, head. by rewrite <- !app_assoc.
  - unfold trailing_newlines. rewrite !rev_app_distr. reflexivity.
  - eapply (contains_middle _ _ head). reflexivity.
  - eapply (contains_middle _ _
              (head ++ lit "[PREFIX_BEFORE_CURSOR]" ++ [nl] ++ before_text ++ [nl])).
    by rewrite <- !app_assoc.
  - eapply (contains_middle _ _
              (head ++ lit "[PREFIX_BEFORE_CURSOR]" ++ [nl] ++ before_text ++ [nl]
               ++ lit "[CURRENT_LINE_PREFIX]" ++ [nl] ++ take bc cur ++ [nl])).
    by rewrite <- !app_assoc.
  - eapply contains_middle. reflexivity.
Qed.

Lemma windowed_prompt_shape_witness :
  truthy demo_store
    (fim_enabled (with_fim (VBool false) (VStr (lit "auto")) demo_engine))
  = false
  ∧ ∃ payload body,
      build_request_payload demo_store
        (with_fim (VBool false) (VStr (lit "auto")) demo_engine)
        suffix_lines 1 17 (lit "lua") false = Ok payload
      ∧ payload !! "prompt"
        = Some (VStr (body ++ lit "[INSERT_AT_CURSOR]" ++ [nl; nl])).
Proof.
  split; [reflexivity|].
  destruct (windowed_prompt_shape demo_store
              (with_fim (VBool false) (VStr (lit "auto")) demo_engine)
              suffix_lines 1 17 (lit "lua") false eq_refl)
    as (payload & body & Hb & Hp & _).
  exists payload, body. by split.
Defined.

(** ** Bounds of the native payload *)

(** With a prefix limit of at least one character and a suffix limit that
    is not negative, both fields of the native payload are within their
    limits. *)
Lemma native_payload_within_limits st self lines line character filetype
    payload :
  1 <= max_prefix_chars self -> 0 <= max_suffix_chars self ->
  use_template_fim st self false = true ->
  build_request_payload st self lines line character filetype false
    = Ok payload ->
  ∃ prompt suffix,
    payload !! "prompt" = Some (VStr prompt)
    ∧ payload !! "suffix" = Some (VStr suffix)
    ∧ len prompt <= max_prefix_chars self
    ∧ len suffix <= max_suffix_chars self.
Proof.
  intros Hp Hs Huse Hb.
  destruct (build_request_payload_cases st self lines line character filetype
              false)
    as (prefix & suffix & indent & centered & _ & _ & Hb').
  rewrite Hb, Huse in Hb'. injection Hb' as ->.
  eexists _, _. split; [|split; [|split]].
  - rewrite lookup_insert_ne by done. apply lookup_insert_eq.
  - apply lookup_insert_eq.
  - by apply length_slice_from_last.
  - by apply length_slice_to.
Qed.

Lemma zero_prefix_engine_built :
  __init__ ∅ (lit "m") (lit "http://localhost:11434") (Some 1%positive)
    zero_prefix_options
  = (Ok zero_prefix_engine, {[ 1%positive := ∅ ]}).
Proof. vm_compute. reflexivity. Qed.

(** C4 fails on the code at a prefix limit of 0: [prefix[-0:]] is the whole
    prefix. For the document ["ab"] with the cursor at its end the native
    prompt is "ab", two characters against a limit of none. *)
Theorem native_prompt_exceeds_zero_limit :
  ∃ payload,
    build_request_payload {[ 1%positive := ∅ ]} zero_prefix_engine
      [lit "ab"] 0 2 [] false = Ok payload
    ∧ is_Some (payload !! "suffix")
    ∧ payload !! "prompt" = Some (VStr (lit "ab"))
    ∧ max_prefix_chars zero_prefix_engine = 0
    ∧ ¬ (len (lit "ab") <= max_prefix_chars zero_prefix_engine).
Proof.
  eexists. split; [vm_compute; reflexivity|].
  split; [vm_compute; eauto|].
  split; [vm_compute; reflexivity|].
  split; [reflexivity|].
  vm_compute. intros H. by apply H.
Qed.

(** ** The sentinel markers of the manual-FIM prompt *)

Lemma FIM_PREFIX_is_marker : is_marker FIM_PREFIX.
Proof.
  eexists. split; [reflexivity|]. split; [|reflexivity].
  rewrite list_elem_of_In. simpl. intuition discriminate.
Qed.

Lemma FIM_SUFFIX_is_marker : is_marker FIM_SUFFIX.
Proof.
  eexists. split; [reflexivity|]. split; [|reflexivity].
  rewrite list_elem_of_In. simpl. intuition discriminate.
Qed.

Lemma FIM_MIDDLE_is_marker : is_marker FIM_MIDDLE.
Proof.
  eexists. split; [reflexivity|]. split; [|reflexivity].
  rewrite list_elem_of_In. simpl. intuition discriminate.
Qed.

(** A text without [<] that runs up to a [<] of another text lies before
    that [<]. *)
Lemma before_angle (x t p rest : str) :
  "<"%char ∉ x -> x ++ t = p ++ "<"%char :: rest -> ∃ t', p = x ++ t'.
Proof.
  revert p. induction x as [|c x IH]; intros p Hx Heq; [by eexists|].
  destruct p as [|d p]; simpl in Heq.
  - injection Heq as -> _. exfalso. apply Hx. apply list_elem_of_here.
  - injection Heq as -> Heq.
    destruct (IH p) as [t' ->]; [|done|by eexists].
    intros Hin. apply Hx. by apply list_elem_of_further.
Qed.

(** An occurrence of a marker in [p ++ s ++ r], where [s] is a marker, lies
    inside [p], or is [s] itself, or lies inside [r]. *)
Lemma marker_occurrence (m s a t p r : str) :
  is_marker m -> is_marker s ->
  a ++ m ++ t = p ++ s ++ r ->
  (∃ t', p = a ++ m ++ t')
  ∨ (a = p ∧ m = s ∧ t = r)
  ∨ (∃ a', a = p ++ s ++ a' ∧ a' ++ m ++ t = r).
Proof.
  intros (m' & -> & Hm' & Hlm) (s' & -> & Hs' & Hls).
  revert p. induction a as [|c a IH]; intros p Heq.
  - destruct p as [|d p]; simpl in Heq.
    + right. left. injection Heq as Heq.
      apply app_inj_1 in Heq as [-> ->]; [done|].
      simpl in Hlm, Hls. lia.
    + left. injection Heq as <- Heq.
      destruct (before_angle m' t p (s' ++ r) Hm' Heq) as [t' ->].
      by exists t'.
  - destruct p as [|d p]; simpl in Heq.
    + right. right. injection Heq as -> Heq. symmetry in Heq.
      destruct (before_angle s' r a (m' ++ t) Hs' Heq) as [a' ->].
      exists a'. split; [done|].
      rewrite <- app_assoc in Heq. by apply app_inv_head in Heq.
    + injection Heq as -> Heq.
      destruct (IH p Heq) as [[t' ->] | [(-> & H1 & H2) | (a' & -> & H)]].
      * left. by exists t'.
      * right. left. done.
      * right. right. by exists a'.
Qed.

(** In a manual-FIM prompt over texts that hold no marker, a marker occurs
    only where the prompt puts one. *)
Lemma manual_prompt_occurrence (m a t p x : str) :
  is_marker m ->
  contains m p = false -> contains m x = false ->
  a ++ m ++ t = FIM_PREFIX ++ p ++ FIM_SUFFIX ++ x ++ FIM_MIDDLE ->
  (a = [] ∧ m = FIM_PREFIX)
  ∨ (a = FIM_PREFIX ++ p ∧ m = FIM_SUFFIX)
  ∨ (a = FIM_PREFIX ++ p ++ FIM_SUFFIX ++ x ∧ m = FIM_MIDDLE).
Proof.
  intros Hm Hp Hx Heq.
  assert (∀ u, (¬ (∃ a' t', u = a' ++ m ++ t')) <-> contains m u = false) as Hno.
  { intros u. rewrite <- contains_iff. by destruct (contains m u). }
  pose proof Hm as (m' & Hm1 & _ & _).
  destruct (marker_occurrence m FIM_PREFIX a t [] _ Hm FIM_PREFIX_is_marker Heq)
    as [[t' Ht'] | [(-> & -> & _) | (a1 & -> & Heq1)]].
  { destruct a; subst m; discriminate. }
  { by left. }
  right.
  destruct (marker_occurrence m FIM_SUFFIX a1 t p _ Hm FIM_SUFFIX_is_marker Heq1)
    as [[t' Ht'] | [(-> & -> & _) | (a2 & -> & Heq2)]].
  { exfalso. apply (proj2 (Hno p)); eauto. }
  { by left. }
  right.
  rewrite <- (app_nil_r FIM_MIDDLE) in Heq2.
  destruct (marker_occurrence m FIM_MIDDLE a2 t x _ Hm FIM_MIDDLE_is_marker Heq2)
    as [[t' Ht'] | [(-> & -> & _) | (a3 & -> & Heq3)]].
  { exfalso. apply (proj2 (Hno x)); eauto. }
  { done. }
  destruct a3; subst m; discriminate.
Qed.

Lemma manual_prompt_occurrences (p x : str) :
  let prompt := FIM_PREFIX ++ p ++ FIM_SUFFIX ++ x ++ FIM_MIDDLE in
  (0 ∈ occurrences FIM_PREFIX prompt
   ∧ 14 + length p ∈ occurrences FIM_SUFFIX prompt
   ∧ 28 + length p + length x ∈ occurrences FIM_MIDDLE prompt)%nat
  ∧ ((∀ m, m ∈ [FIM_PREFIX; FIM_SUFFIX; FIM_MIDDLE] ->
           contains m p = false ∧ contains m x = false) ->
     occurrences FIM_PREFIX prompt = [0%nat]
     ∧ occurrences FIM_SUFFIX prompt = [(14 + length p)%nat]
     ∧ occurrences FIM_MIDDLE prompt = [(28 + length p + length x)%nat]).
Proof.
  intros prompt.
  assert (length FIM_PREFIX = 14%nat) as Hl1 by reflexivity.
  assert (length FIM_SUFFIX = 14%nat) as Hl2 by reflexivity.
  assert (0%nat ∈ occurrences FIM_PREFIX prompt) as H1.
  { apply elem_of_occurrences. by exists [], (p ++ FIM_SUFFIX ++ x ++ FIM_MIDDLE). }
  assert ((14 + length p)%nat ∈ occurrences FIM_SUFFIX prompt) as H2.
  { apply elem_of_occurrences. exists (FIM_PREFIX ++ p), (x ++ FIM_MIDDLE).
    split; [unfold prompt; by rewrite <- !app_assoc|].
    rewrite length_app. lia. }
  assert ((28 + length p + length x)%nat ∈ occurrences FIM_MIDDLE prompt) as H3.
  { apply elem_of_occurrences.
    exists (FIM_PREFIX ++ p ++ FIM_SUFFIX ++ x), [].
    split; [unfold prompt; by rewrite <- !app_assoc, app_nil_r|].
    rewrite !length_app. lia. }
  split; [done|]. intros Hfree.
  assert (∀ m i, is_marker m -> m ∈ [FIM_PREFIX; FIM_SUFFIX; FIM_MIDDLE] ->
            i ∈ occurrences m prompt ->
            (i = 0%nat ∧ m = FIM_PREFIX)
            ∨ (i = (14 + length p)%nat ∧ m = FIM_SUFFIX)
            ∨ (i = (28 + length p + length x)%nat ∧ m = FIM_MIDDLE)) as Honly.
  { intros m i Hm Hin (a & t & Heq & ->)%elem_of_occurrences.
    destruct (Hfree m Hin) as [Hp Hx]. symmetry in Heq.
    destruct (manual_prompt_occurrence m a t p x Hm Hp Hx Heq)
      as [[-> ->] | [[-> ->] | [-> ->]]].
    - by left.
    - right. left. split; [|done]. rewrite length_app. lia.
    - right. right. split; [|done]. rewrite !length_app. lia. }
  split; [|split]; apply occurrences_singleton; intros i; split;
    try (by intros ->).
  - intros Hi.
    destruct (Honly _ i FIM_PREFIX_is_marker ltac:(repeat constructor) Hi)
      as [[-> _] | [[_ ?] | [_ ?]]]; [done|discriminate..].
  - intros Hi.
    destruct (Honly _ i FIM_SUFFIX_is_marker ltac:(repeat constructor) Hi)
      as [[_ ?] | [[-> _] | [_ ?]]]; [discriminate|done|discriminate].
  - intros Hi.
    destruct (Honly _ i FIM_MIDDLE_is_marker ltac:(repeat constructor) Hi)
      as [[_ ?] | [[_ ?] | [-> _]]]; [discriminate..|done].
Qed.

(** The claim that each marker occurs exactly once fails when the text
    around the cursor holds a marker itself: for the one-line document
    [<|fim_middle|>] with the cursor at its end, the middle marker occurs
    twice in the prompt. *)
Lemma manual_prompt_marker_twice :
  ∃ payload prompt,
    build_request_payload demo_store manual_engine
      [lit "<|fim_middle|>"] 0 14 [] false = Ok payload
    ∧ payload !! "prompt" = Some (VStr prompt)
    ∧ occurrences FIM_MIDDLE prompt = [14%nat; 42%nat].
Proof.
  eexists _, _. split; [vm_compute; reflexivity|].
  split; [vm_compute; reflexivity|].
  vm_compute. reflexivity.
Qed.

(** C5, as the code has it: the manual-FIM prompt is the prefix marker, the
    prefix, the suffix marker, [suffix[:max_suffix_chars]] (the first
    [max_suffix_chars] characters of the suffix when that limit is not
    negative) and the middle marker; in a payload built that way the three
    markers occur in this order, and each occurs exactly once provided the
    bounded prefix and the bounded suffix hold no marker themselves. *)
Theorem manual_fim_prompt_markers st self :
  (∀ prefix suffix,
     _manual_fim_prompt self prefix suffix
     = FIM_PREFIX ++ prefix ++ FIM_SUFFIX
       ++ slice_to suffix (max_suffix_chars self) ++ FIM_MIDDLE
     ∧ (0 <= max_suffix_chars self ->
        slice_to suffix (max_suffix_chars self)
        = take (Z.to_nat (max_suffix_chars self)) suffix))
  ∧ ∀ lines line character filetype force_manual_fim prefix suffix indent,
      _split_prefix_suffix lines line character = Ok (prefix, suffix, indent) ->
      truthy st (fim_enabled self) = true ->
      use_template_fim st self force_manual_fim = false ->
      let bounded_prefix := slice_from prefix (- max_prefix_chars self) in
      let bounded_suffix := slice_to suffix (max_suffix_chars self) in
      let prompt :=
        FIM_PREFIX ++ bounded_prefix ++ FIM_SUFFIX ++ bounded_suffix
        ++ FIM_MIDDLE in
      ∃ payload,
        build_request_payload st self lines line character filetype
          force_manual_fim = Ok payload
        ∧ payload !! "prompt" = Some (VStr prompt)
        ∧ payload !! "suffix" = None
        ∧ (0 ∈ occurrences FIM_PREFIX prompt
           ∧ 14 + length bounded_prefix ∈ occurrences FIM_SUFFIX prompt
           ∧ 28 + length bounded_prefix + length bounded_suffix
               ∈ occurrences FIM_MIDDLE prompt)%nat
        ∧ ((∀ m, m ∈ [FIM_PREFIX; FIM_SUFFIX; FIM_MIDDLE] ->
                 contains m bounded_prefix = false
                 ∧ contains m bounded_suffix = false) ->
           occurrences FIM_PREFIX prompt = [0%nat]
           ∧ occurrences FIM_SUFFIX prompt = [(14 + length bounded_prefix)%nat]
           ∧ occurrences FIM_MIDDLE prompt
             = [(28 + length bounded_prefix + length bounded_suffix)%nat]).
Proof.
  split.
  - intros prefix suffix. split; [reflexivity|]. apply slice_to_nonneg.
  - intros lines line character filetype force prefix suffix indent
      Hsplit Hon Huse bounded_prefix bounded_suffix prompt.
    destruct (build_request_payload_cases st self lines line character
                filetype force)
      as (prefix' & suffix' & indent' & centered & Hs & _ & Hb).
    rewrite Hsplit in Hs. injection Hs as <- <- <-.
    rewrite Huse, Hon in Hb.
    exists (<["prompt" := VStr (_manual_fim_prompt self
                                  (slice_from prefix (- max_prefix_chars self))
                                  suffix)]> (base_payload self)).
    split; [exact Hb|]. split; [by rewrite lookup_insert_eq|].
    split.
    { unfold base_payload. by rewrite !lookup_insert_ne, lookup_empty. }
    apply manual_prompt_occurrences.
Qed.

Lemma manual_fim_prompt_markers_witness :
  ∃ payload prompt,
    build_request_payload demo_store manual_engine suffix_lines 1 17
      (lit "lua") false = Ok payload
    ∧ payload !! "prompt" = Some (VStr prompt)
    ∧ occurrences FIM_PREFIX prompt = [0%nat]
    ∧ occurrences FIM_SUFFIX prompt = [58%nat]
    ∧ occurrences FIM_MIDDLE prompt = [94%nat].
Proof.
  destruct (manual_fim_prompt_markers demo_store manual_engine) as [_ H].
  destruct (H suffix_lines 1 17 (lit "lua") false
              (lit "local function build(x, y)" ++ [nl] ++ lit "  local result = ")
              (lit "x " ++ [nl] ++ lit "  return result" ++ [nl] ++ lit "end")
              (lit "  ") eq_refl eq_refl eq_refl)
    as (payload & Hb & Hp & _ & _ & Honce).
  eexists payload, _. split; [exact Hb|]. split; [exact Hp|].
  apply Honce. intros m Hm.
  repeat (apply elem_of_cons in Hm as [-> | Hm]; [by vm_compute|]).
  by apply elem_of_nil in Hm.
Defined.

(** ** Normalizing stream chunks *)

(** A dict chunk passes through as it is, also when it has no ["response"]
    entry: the claim that every normalized chunk has one fails on the empty
    dict. *)
Lemma normalize_chunk_without_response :
  _normalize_chunk (ChunkDict ∅) = ∅
  ∧ _normalize_chunk (ChunkDict ∅) !! "response" = None.
Proof. split; reflexivity. Qed.

(** C8, as the code has it: a dict passes through unchanged; an object with
    a [model_dump] method, or else with a [dict] method, is replaced by what
    that method returns; any other chunk [c] becomes [{"response": str(c)}],
    and only in this last case is a textual ["response"] entry certain. *)
Theorem normalize_chunk_cases :
  (∀ d, _normalize_chunk (ChunkDict d) = d)
  ∧ (∀ dumped other s, _normalize_chunk (ChunkObj (Some dumped) other s) = dumped)
  ∧ (∀ d s, _normalize_chunk (ChunkObj None (Some d) s) = d)
  ∧ (∀ s, _normalize_chunk (ChunkObj None None s) = {[ "response"%string := VStr s ]}
          ∧ _normalize_chunk (ChunkObj None None s) !! "response" = Some (VStr s)).
Proof.
  repeat split; try reflexivity.
Qed.

(** ** The context windower *)

Lemma clamped_line_windowed (lines : list str) (line : Z) :
  clamped_line (windowed_lines lines) line = clamped_line lines line.
Proof.
  unfold windowed_lines. case_bool_decide as H; [|done].
  subst lines. unfold clamped_line, len. simpl. lia.
Qed.

(** The before-context is the last lines of those before the cursor line,
    at most [context_lines_before] of them. *)
Lemma before_lines_eq self (doc : list str) (bl : nat) :
  before_lines self doc (Z.of_nat bl)
  = drop (bl - Z.to_nat (context_lines_before self)) (take bl doc).
Proof.
  unfold before_lines. rewrite slice_nonneg by lia.
  rewrite Nat2Z.id.
  destruct (Z.le_gt_cases 0 (context_lines_before self)) as [Hc|Hc].
  - f_equal. lia.
  - replace (bl - Z.to_nat (context_lines_before self))%nat with bl by lia.
    rewrite !drop_ge; [done| |]; rewrite length_take; lia.
Qed.

Lemma windowed_lines_take (lines1 lines2 : list str) (n : nat) :
  take (S n) lines1 = take (S n) lines2 ->
  take (S n) (windowed_lines lines1) = take (S n) (windowed_lines lines2).
Proof.
  intros Heq. unfold windowed_lines.
  destruct lines1 as [|a l1], lines2 as [|b l2]; try done.
Qed.

Lemma windowed_current_line (lines : list str) (line : Z) :
  default [] (windowed_lines lines !! clamped_line (windowed_lines lines) line)
  = default [] (lines !! clamped_line lines line).
Proof.
  rewrite clamped_line_windowed. unfold windowed_lines.
  case_bool_decide as H; [|done]. subst lines.
  by destruct (clamped_line [] line).
Qed.

(** The block in terms of the document alone: what is shown before the
    cursor line, and the cursor line cut at the clamped character. *)
Lemma centered_prefix_explicit self (lines : list str) (line character : Z)
    filetype indent :
  let bounded_line := clamped_line lines line in
  let shown :=
    drop (bounded_line - Z.to_nat (context_lines_before self))
      (take bounded_line lines) in
  let joined := join [nl] shown in
  let current_line := default [] (lines !! bounded_line) in
  let bounded_character :=
    Z.to_nat (Z.max 0 (Z.min character (len current_line))) in
  _centered_prefix self lines line character filetype indent
  = Ok (instruction_block filetype indent
          (if max_prefix_chars self <? len joined
           then slice_from joined (- max_prefix_chars self)
           else joined)
          (take bounded_character current_line)
          (drop bounded_character current_line)).
Proof.
  intros bl shown joined cur bc.
  rewrite centered_prefix_eq, windowed_current_line.
  unfold window_before_text. rewrite clamped_line_windowed, before_lines_eq.
  fold bl. fold cur. fold bc.
  assert (take bl (windowed_lines lines) = take bl lines) as ->; [|done].
  unfold windowed_lines. case_bool_decide as H; [|done]. subst lines.
  assert (bl = 0%nat) as -> by (unfold bl, clamped_line, len; simpl; lia).
  done.
Qed.

(** C9: the instruction block does not depend on the lines after the
    cursor line, nor on [context_lines_after]: two documents with the same
    clamped cursor line that agree up to and including that line give the
    same block, whatever [context_lines_after] is. The block is the one
    whose before-context is the joined text, cut to [max_prefix_chars] from
    the left, of the lines [shown]: these are the last lines before the
    cursor line, at most [context_lines_before] of them, and no other line
    is shown. *)
Theorem centered_prefix_ignores_lines_after self (n : Z)
    (lines1 lines2 : list str) line character filetype indent :
  clamped_line lines1 line = clamped_line lines2 line ->
  take (S (clamped_line lines1 line)) lines1
  = take (S (clamped_line lines1 line)) lines2 ->
  _centered_prefix self lines1 line character filetype indent
  = _centered_prefix (with_context_lines_after n self) lines2 line character
      filetype indent
  ∧ (let bounded_line := clamped_line lines1 line in
     let shown :=
       drop (bounded_line - Z.to_nat (context_lines_before self))
         (take bounded_line lines1) in
     let joined := join [nl] shown in
     let current_line := default [] (lines1 !! bounded_line) in
     let bounded_character :=
       Z.to_nat (Z.max 0 (Z.min character (len current_line))) in
     _centered_prefix (with_context_lines_after n self) lines2 line character
       filetype indent
     = Ok (instruction_block filetype indent
             (if max_prefix_chars self <? len joined
              then slice_from joined (- max_prefix_chars self)
              else joined)
             (take bounded_character current_line)
             (drop bounded_character current_line))
     ∧ shown `suffix_of` take bounded_line lines1
     ∧ (length shown <= Z.to_nat (context_lines_before self))%nat
     ∧ (length shown <= bounded_line)%nat).
Proof.
  intros Hline Hagree.
  assert (_centered_prefix self lines1 line character filetype indent
          = _centered_prefix (with_context_lines_after n self) lines2 line
              character filetype indent) as Hsame.
  { rewrite !centered_prefix_eq.
    unfold window_before_text. rewrite !clamped_line_windowed.
    rewrite <- Hline. set (bl := clamped_line lines1 line) in *.
    apply windowed_lines_take in Hagree.
    set (doc1 := windowed_lines lines1) in *.
    set (doc2 := windowed_lines lines2) in *.
    assert (doc1 !! bl = doc2 !! bl) as Hcur.
    { rewrite <- (lookup_take_lt doc1 (S bl) bl) by lia.
      rewrite <- (lookup_take_lt doc2 (S bl) bl) by lia.
      by rewrite Hagree. }
    assert (take bl doc1 = take bl doc2) as Hbefore.
    { assert (∀ doc : list (list ascii), take bl doc = take bl (take (S bl) doc))
        as Htt by (intros doc; rewrite take_take; f_equal; lia).
      rewrite (Htt doc1), (Htt doc2). by rewrite Hagree. }
    rewrite !before_lines_eq. simpl context_lines_before.
    simpl max_prefix_chars. by rewrite Hcur, Hbefore. }
  split; [exact Hsame|].
  intros bl shown joined cur bc.
  split; [|split; [|split]].
  - rewrite <- Hsame. apply centered_prefix_explicit.
  - apply suffix_drop.
  - unfold shown. rewrite length_drop, length_take. lia.
  - unfold shown. rewrite length_drop, length_take. lia.
Qed.

Lemma centered_prefix_ignores_lines_after_witness :
  _centered_prefix demo_engine suffix_lines 1 17 (lit "lua") (lit "  ")
  = _centered_prefix (with_context_lines_after 0 demo_engine)
      [lit "local function build(x, y)"; lit "  local result = x ";
       lit "print(build(1, 2))"]
      1 17 (lit "lua") (lit "  ").
Proof.
  exact (proj1 (centered_prefix_ignores_lines_after demo_engine 0 suffix_lines
                  [lit "local function build(x, y)"; lit "  local result = x ";
                   lit "print(build(1, 2))"]
                  1 17 (lit "lua") (lit "  ") eq_refl eq_refl)).
Defined.

(** ** The pass-through options *)

Lemma deref_insert (st : store) (l : loc) (d : gmap string pyval) :
  deref (<[l := d]> st) l = d.
Proof. unfold deref. by rewrite lookup_insert_eq. Qed.

(** Popping leaves the popped key out, and keeps out what was out. *)
Lemma dict_pop_spec (l : loc) (key : string) (dflt : pyval) (st : store) :
  ∃ v, dict_pop l key dflt st
       = (Ok v, <[l := delete key (deref st l)]> st).
Proof. by eexists. Qed.

Lemma init_options_popped env model_name url opts st self st' :
  __init__ env model_name url opts st = (Ok self, st') ->
  ∃ d : gmap string pyval,
    deref st' (options self)
    = delete "debug_log_file" (delete "debug" (delete "max_suffix_chars"
        (delete "max_prefix_chars" (delete "context_lines_after"
          (delete "context_lines_before" (delete "fim_mode"
            (delete "fim_enabled" d))))))).
Proof.
  unfold __init__, mbind, M_bind, get_state, lift, mret, M_ret, dict_pop.
  intros H.
  set (first := match opts with
                | Some l => if truthy st (VDict l) then _ else new_dict
                | None => new_dict
                end st) in H.
  destruct first as [[l|e] st0] eqn:Hfirst; [|discriminate].
  repeat (match type of H with
          | context [py_int ?v] => destruct (py_int v); [|discriminate]
          end).
  injection H as <- <-. simpl options.
  rewrite !deref_insert. by eexists.
Qed.

(** C10: once [__init__] has returned, the options dict of the engine holds
    none of the configuration keys, and every payload the engine builds
    refers to that same dict under ["options"]. A call of
    [build_request_payload] only reads the store, so what holds of the dict
    before a call holds after it. *)
Theorem options_hold_no_recognized_key env model_name url opts st self st' :
  __init__ env model_name url opts st = (Ok self, st') ->
  (∀ key, key ∈ recognized_keys -> deref st' (options self) !! key = None)
  ∧ ∀ lines line character filetype force_manual_fim,
      ∃ payload,
        build_request_payload st' self lines line character filetype
          force_manual_fim = Ok payload
        ∧ payload !! "options" = Some (VDict (options self)).
Proof.
  intros Hinit. split.
  - destruct (init_options_popped _ _ _ _ _ _ _ Hinit) as [d ->].
    intros key Hkey. unfold recognized_keys in Hkey.
    repeat (apply elem_of_cons in Hkey as [-> | Hkey];
            [by simplify_map_eq|]).
    by apply elem_of_nil in Hkey.
  - intros lines line character filetype force.
    destruct (build_request_payload_cases st' self lines line character
                filetype force)
      as (prefix & suffix & indent & centered & _ & _ & Hb).
    eexists. split; [exact Hb|].
    unfold base_payload. repeat case_match; by simplify_map_eq.
Qed.

Lemma options_hold_no_recognized_key_witness :
  __init__ ∅ (lit "qwen2.5-coder:3b") (lit "http://localhost:11434")
    (Some 1%positive) demo_options
  = (Ok demo_engine, demo_store)
  ∧ (∀ key, key ∈ recognized_keys ->
       deref demo_store (options demo_engine) !! key = None).
Proof.
  assert (__init__ ∅ (lit "qwen2.5-coder:3b") (lit "http://localhost:11434")
            (Some 1%positive) demo_options
          = (Ok demo_engine, demo_store)) as Hinit
    by (vm_compute; reflexivity).
  split; [exact Hinit|].
  exact (proj1 (options_hold_no_recognized_key _ _ _ _ _ _ _ Hinit)).
Defined.

(** ** The capability fallback of [complete] *)

Lemma debug_log_keeps {B} self event payload (w : world B) :
  ∃ w', _debug_log self event payload w = (Ok (), w')
        ∧ world_backend w' = world_backend w
        ∧ submitted w' = submitted w.
Proof.
  unfold _debug_log.
  destruct (debug self), (log_accepts w event payload); simpl; eauto.
Qed.

(** C3: [complete] submits the payload built without [force_manual_fim].
    If the backend accepts it, the stream is returned after that one
    submission. If the backend raises a TypeError whose message mentions
    "suffix", the payload is built again with [force_manual_fim] true (it
    has no ["suffix"] entry) and submitted once more, and whatever this
    second submission gives, a stream or an error, is the outcome. Any other
    error of the first submission is the outcome as it is, after that one
    submission. *)
Theorem complete_retries_once {B} (generate : gmap string pyval -> M B (list chunk))
    st self lines line character filetype (w : world B) :
  ∃ payload fallback_payload,
    build_request_payload st self lines line character filetype false
      = Ok payload
    ∧ build_request_payload st self lines line character filetype true
      = Ok fallback_payload
    ∧ fallback_payload !! "suffix" = None
    ∧ (∀ stream b1,
         generate payload (world_backend w) = (Ok stream, b1) ->
         ∃ w', complete generate st self lines line character filetype w
               = (Ok (_debug_stream self stream), w')
               ∧ submitted w' = submitted w ++ [payload]
               ∧ world_backend w' = b1)
    ∧ (∀ e b1,
         generate payload (world_backend w) = (Raise e, b1) ->
         suffix_type_error e = false ->
         ∃ w', complete generate st self lines line character filetype w
               = (Raise e, w')
               ∧ submitted w' = submitted w ++ [payload]
               ∧ world_backend w' = b1)
    ∧ (∀ e b1 outcome b2,
         generate payload (world_backend w) = (Raise e, b1) ->
         suffix_type_error e = true ->
         generate fallback_payload b1 = (outcome, b2) ->
         ∃ w', complete generate st self lines line character filetype w
               = (match outcome with
                  | Ok stream => Ok (_debug_stream self stream)
                  | Raise e2 => Raise e2
                  end, w')
               ∧ submitted w' = submitted w ++ [payload; fallback_payload]
               ∧ world_backend w' = b2).
Proof.
  destruct (build_request_payload_cases st self lines line character filetype
              false) as (p1 & s1 & i1 & c1 & _ & _ & Hb).
  destruct (build_request_payload_cases st self lines line character filetype
              true) as (p2 & s2 & i2 & c2 & _ & _ & Hf).
  eexists _, _. split; [exact Hb|]. split; [exact Hf|].
  set (payload := if use_template_fim st self false then _ else _) in *.
  set (fallback := if use_template_fim st self true then _ else _) in *.
  assert (fallback !! "suffix" = None) as Hnosuffix.
  { unfold fallback, use_template_fim, base_payload.
    rewrite andb_false_r. simpl. by repeat case_match; simplify_map_eq. }
  split; [exact Hnosuffix|].
  destruct (debug_log_keeps self "payload" payload w)
    as (w0 & Hlog0 & Hb0 & Hs0).
  unfold complete, mbind, M_bind, lift. rewrite Hb, Hlog0.
  unfold try_except_TypeError, client_generate, mret, M_ret.
  rewrite Hb0, Hs0.
  split; [|split].
  - intros stream b1 Hgen. rewrite Hgen. simpl. eauto.
  - intros e b1 Hgen Hnot. rewrite Hgen. simpl.
    unfold suffix_type_error in Hnot.
    destruct (exn_class_of e); simpl; eauto.
    rewrite Hnot. simpl. eauto.
  - intros e b1 outcome b2 Hgen Hyes Hgen2. rewrite Hgen. simpl.
    unfold suffix_type_error in Hyes.
    destruct (exn_class_of e); try discriminate.
    rewrite Hyes. simpl. rewrite Hf.
    match goal with
    | |- context [_debug_log self "payload_fallback" fallback ?w1] =>
        destruct (debug_log_keeps self "payload_fallback" fallback w1)
          as (w2 & Hlog2 & Hb2 & Hs2)
    end.
    rewrite Hlog2. rewrite Hb2, Hs2. simpl. rewrite Hgen2.
    destruct outcome; simpl; rewrite <- app_assoc; eauto.
Qed.

Lemma complete_retries_once_witness :
  ∃ payload fallback_payload w',
    complete old_client demo_store demo_engine suffix_lines 1 17 (lit "lua")
      fresh_world
    = (Ok (_debug_stream demo_engine
             [ChunkDict {[ "response"%string := VStr (lit "x") ]}]), w')
    ∧ submitted w' = [payload; fallback_payload]
    ∧ is_Some (payload !! "suffix")
    ∧ fallback_payload !! "suffix" = None
    ∧ world_backend w' = 2%nat.
Proof.
  destruct (complete_retries_once old_client demo_store demo_engine
              suffix_lines 1 17 (lit "lua") fresh_world)
    as (payload & fallback & Hb & Hf & Hno & _ & _ & Hretry).
  assert (is_Some (payload !! "suffix")) as Hsome.
  { vm_compute in Hb. injection Hb as <-. vm_compute. eauto. }
  destruct (Hretry
              (Exn TypeError
                 (lit "Client.generate() got an unexpected keyword argument 'suffix'"))
              1%nat
              (Ok [ChunkDict {[ "response"%string := VStr (lit "x") ]}])
              2%nat)
    as (w' & Hc & Hs & Hbk).
  - unfold old_client. by rewrite bool_decide_eq_true_2.
  - vm_compute. reflexivity.
  - unfold old_client. rewrite bool_decide_eq_false_2; [done|].
    rewrite Hno. by intros [? ?].
  - exists payload, fallback, w'. done.
Defined.

(** * Further properties of the engine *)

(** ** More on the cursor splitter *)

(** X1: the two halves put together are the document, unless the cursor is on
    the second line and the first line is empty. *)
Lemma split_halves_rejoin (lines : list str) (line character : Z)
    (prefix suffix indent : str) :
  _split_prefix_suffix lines line character = Ok (prefix, suffix, indent) ->
  clamped_line lines line ≠ 1%nat ∨ lines !! 0%nat ≠ Some [] ->
  prefix ++ suffix = join [nl] lines.
Proof.
  intros Hs Hok. apply (split_prefix_suffix_reconstructs _ _ _ _ _ _ Hs).
  intros [H1 H0]. by destruct Hok.
Qed.

Lemma split_halves_rejoin_witness :
  ∃ prefix suffix indent,
    _split_prefix_suffix suffix_lines 1 17 = Ok (prefix, suffix, indent)
    ∧ prefix ++ suffix = join [nl] suffix_lines.
Proof.
  exists (lit "local function build(x, y)" ++ [nl] ++ lit "  local result = "),
    (lit "x " ++ [nl] ++ lit "  return result" ++ [nl] ++ lit "end"),
    (lit "  ").
  split; [reflexivity|].
  apply (split_halves_rejoin suffix_lines 1 17 _ _ (lit "  ") eq_refl).
  right. intros H. discriminate H.
Defined.

Lemma leading_run_chars chars (s : str) :
  Forall (λ c, c ∈ chars) (SplitterSpec.leading_run chars s).
Proof.
  induction s as [|c s IH]; simpl; [constructor|].
  case_bool_decide; by constructor.
Qed.

Lemma lstrip_head chars (s : str) :
  match lstrip chars s with
  | c :: _ => c ∉ chars
  | [] => True
  end.
Proof.
  induction s as [|c s IH]; simpl; [done|].
  by case_bool_decide.
Qed.

(** X2: the indent is the longest run of spaces and tabs at the start of the
    text left of the cursor on the cursor line. *)
Lemma split_indent_is_leading_whitespace (lines : list str)
    (line character : Z) (prefix suffix indent : str) :
  _split_prefix_suffix lines line character = Ok (prefix, suffix, indent) ->
  let current_line := default [] (lines !! clamped_line lines line) in
  let left := take (clamped_character lines line character) current_line in
  Forall (λ c, c = space ∨ c = tab) indent
  ∧ ∃ rest, left = indent ++ rest
            ∧ match rest with
              | c :: _ => c ≠ space ∧ c ≠ tab
              | [] => True
              end.
Proof.
  intros Heq current_line left.
  rewrite split_prefix_suffix_clamped in Heq.
  unfold SplitterSpec.split in Heq. injection Heq as _ _ <-.
  fold current_line. fold left. split.
  - eapply Forall_impl; [apply leading_run_chars|].
    intros c Hc. simpl in Hc.
    apply elem_of_cons in Hc as [->|Hc]; [by left|].
    apply elem_of_cons in Hc as [->|Hc]; [by right|].
    by apply elem_of_nil in Hc.
  - exists (lstrip [space; tab] left). split.
    + symmetry. apply lstrip_leading_run.
    + pose proof (lstrip_head [space; tab] left) as Hh.
      destruct (lstrip [space; tab] left) as [|c rest]; [done|].
      split; intros ->; apply Hh; repeat constructor.
Qed.

Lemma split_indent_is_leading_whitespace_witness :
  ∃ prefix suffix,
    _split_prefix_suffix suffix_lines 1 17 = Ok (prefix, suffix, lit "  ")
    ∧ Forall (λ c, c = space ∨ c = tab) (lit "  ").
Proof.
  exists (lit "local function build(x, y)" ++ [nl] ++ lit "  local result = "),
    (lit "x " ++ [nl] ++ lit "  return result" ++ [nl] ++ lit "end").
  split; [reflexivity|].
  exact (proj1 (split_indent_is_leading_whitespace suffix_lines 1 17 _ _
                  (lit "  ") eq_refl)).
Defined.

Lemma clamped_line_idemp (lines : list str) (line : Z) :
  clamped_line lines (Z.of_nat (clamped_line lines line))
  = clamped_line lines line.
Proof. unfold clamped_line, len. destruct lines; simpl length; lia. Qed.

Lemma clamped_character_idemp (lines : list str) (line character : Z) :
  clamped_character lines (Z.of_nat (clamped_line lines line))
    (Z.of_nat (clamped_character lines line character))
  = clamped_character lines line character.
Proof.
  unfold clamped_character. rewrite clamped_line_idemp. unfold len. lia.
Qed.

(** X3: a cursor outside the document stands for the nearest position inside
    it: the payload for any [line] and [character] is the payload for the
    clamped line and the clamped character. *)
Lemma build_request_payload_at_clamped_cursor st self (lines : list str)
    (line character : Z) filetype force_manual_fim :
  build_request_payload st self lines line character filetype force_manual_fim
  = build_request_payload st self lines
      (Z.of_nat (clamped_line lines line))
      (Z.of_nat (clamped_character lines line character))
      filetype force_manual_fim.
Proof.
  unfold build_request_payload.
  rewrite !split_prefix_suffix_clamped.
  rewrite clamped_line_idemp, clamped_character_idemp.
  destruct (SplitterSpec.split _ _ _) as [[prefix suffix] indent].
  unfold mbind, result_bind. cbv beta iota.
  assert (_centered_prefix self lines line character filetype indent
          = _centered_prefix self lines (Z.of_nat (clamped_line lines line))
              (Z.of_nat (clamped_character lines line character))
              filetype indent) as ->; [|done].
  rewrite !centered_prefix_eq. unfold window_before_text.
  rewrite !windowed_current_line, !clamped_line_windowed.
  rewrite !clamped_line_idemp.
  fold (clamped_character lines line character).
  set (cur := default [] (lines !! clamped_line lines line)).
  replace (Z.to_nat (Z.max 0 (Z.min (Z.of_nat (clamped_character lines line character))
                                (len cur))))
    with (clamped_character lines line character); [done|].
  unfold clamped_character. fold cur. unfold len. lia.
Qed.

(** X4: with the cursor at or before the start of the document the prefix and
    the indent are empty and the suffix is the whole document. *)
Lemma split_at_document_start (lines : list str) (line character : Z) :
  line <= 0 -> character <= 0 ->
  _split_prefix_suffix lines line character = Ok ([], join [nl] lines, []).
Proof.
  intros Hl Hc. rewrite split_prefix_suffix_clamped.
  assert (clamped_line lines line = 0%nat) as Hbl
    by (unfold clamped_line, len; lia).
  assert (clamped_character lines line character = 0%nat) as ->
    by (unfold clamped_character, len; lia).
  rewrite Hbl. unfold SplitterSpec.split.
  destruct lines as [|a [|b l]]; reflexivity.
Qed.

Lemma split_at_document_start_witness :
  _split_prefix_suffix suffix_lines (-3) (-1)
  = Ok ([], join [nl] suffix_lines, []).
Proof. apply split_at_document_start; lia. Defined.

(** X5: with the cursor at or after the end of the document the suffix is
    empty, and the prefix is the whole document unless the document is an
    empty line followed by one more line. *)
Lemma split_at_document_end (lines : list str) (line character : Z) :
  len lines - 1 <= line ->
  len (default [] (last lines)) <= character ->
  ∃ prefix indent,
    _split_prefix_suffix lines line character = Ok (prefix, [], indent)
    ∧ (¬ (length lines = 2%nat ∧ lines !! 0%nat = Some []) ->
       prefix = join [nl] lines).
Proof.
  intros Hl Hc.
  assert (clamped_line lines line = (length lines - 1)%nat) as Hbl
    by (unfold clamped_line, len in *; lia).
  assert (default [] (lines !! clamped_line lines line)
          = default [] (last lines)) as Hcur.
  { rewrite Hbl, last_lookup. do 2 f_equal. lia. }
  destruct (_split_prefix_suffix lines line character) as [[[p s] i]|e] eqn:Hs;
    [|by rewrite split_prefix_suffix_clamped in Hs].
  assert (s = []) as ->.
  { rewrite split_prefix_suffix_clamped in Hs.
    unfold SplitterSpec.split in Hs. injection Hs as _ <- _.
    rewrite bool_decide_eq_false_2 by lia.
    apply drop_ge. unfold clamped_character. rewrite Hcur.
    unfold len in *. lia. }
  exists p, i. split; [done|]. intros Hnot.
  rewrite <- (app_nil_r p).
  apply (split_prefix_suffix_reconstructs lines line character p [] i Hs).
  intros [H1 H0]. apply Hnot. split; [lia|done].
Qed.

Lemma split_at_document_end_witness :
  ∃ prefix indent,
    _split_prefix_suffix suffix_lines 99 99 = Ok (prefix, [], indent)
    ∧ prefix = join [nl] suffix_lines.
Proof.
  destruct (split_at_document_end suffix_lines 99 99) as (p & i & Hs & Hp).
  - vm_compute. discriminate.
  - vm_compute. discriminate.
  - exists p, i. split; [done|]. apply Hp. intros [H _]. discriminate H.
Defined.

(** ** More on the request builder *)

(** X6: every payload has the entries ["model"], ["stream"] (true),
    ["options"] and ["prompt"] (a string), a ["suffix"] entry in the native
    case, and no other entry. *)
Lemma payload_entries st self lines line character filetype force_manual_fim
    payload :
  build_request_payload st self lines line character filetype force_manual_fim
    = Ok payload ->
  dom payload
  = ({[ "model"; "stream"; "options"; "prompt" ]} : gset string)
    ∪ (if use_template_fim st self force_manual_fim
       then {[ "suffix" ]} else ∅)%string
  ∧ payload !! "model" = Some (VStr (model self))
  ∧ payload !! "stream" = Some (VBool true)
  ∧ payload !! "options" = Some (VDict (options self))
  ∧ ∃ prompt, payload !! "prompt" = Some (VStr prompt).
Proof.
  intros Hb.
  destruct (build_request_payload_cases st self lines line character filetype
              force_manual_fim)
    as (prefix & suffix & indent & centered & _ & _ & Hb').
  rewrite Hb in Hb'. injection Hb' as ->.
  unfold base_payload.
  destruct (use_template_fim st self force_manual_fim);
    [|destruct (truthy st (fim_enabled self))];
    (split; [rewrite !dom_insert_L, dom_empty_L; set_solver|]);
    repeat split; eauto; by simplify_map_eq.
Qed.

Lemma payload_entries_witness :
  ∃ payload,
    build_request_payload demo_store demo_engine suffix_lines 1 17 (lit "lua")
      false = Ok payload
    ∧ payload !! "stream" = Some (VBool true).
Proof.
  destruct (build_request_payload_cases demo_store demo_engine suffix_lines
              1 17 (lit "lua") false)
    as (prefix & suffix & indent & centered & _ & _ & Hb).
  eexists. split; [exact Hb|].
  exact (proj1 (proj2 (proj2 (payload_entries _ _ _ _ _ _ _ _ Hb)))).
Defined.

(** X7: when the native branch is not taken anyway, [force_manual_fim] changes
    nothing: the payload built for the retry is the first payload again. *)
Lemma force_manual_fim_without_effect st self lines line character filetype :
  use_template_fim st self false = false ->
  build_request_payload st self lines line character filetype true
  = build_request_payload st self lines line character filetype false.
Proof.
  intros Hno.
  destruct (build_request_payload_cases st self lines line character filetype
              true) as (p1 & s1 & i1 & c1 & Hs1 & Hc1 & ->).
  destruct (build_request_payload_cases st self lines line character filetype
              false) as (p2 & s2 & i2 & c2 & Hs2 & Hc2 & ->).
  rewrite Hs1 in Hs2. injection Hs2 as <- <- <-.
  rewrite Hc1 in Hc2. injection Hc2 as <-.
  rewrite Hno.
  assert (use_template_fim st self true = false) as ->; [|done].
  unfold use_template_fim. simpl. by rewrite andb_false_r.
Qed.

Lemma force_manual_fim_without_effect_witness :
  build_request_payload demo_store manual_engine suffix_lines 1 17 (lit "lua")
    true
  = build_request_payload demo_store manual_engine suffix_lines 1 17
      (lit "lua") false.
Proof. apply force_manual_fim_without_effect. reflexivity. Defined.

(** X8: the retry payload carries the same two texts as the native payload:
    its prompt is the native prompt and the native suffix between the
    markers, and its other entries are those of the native payload. *)
Lemma fallback_encodes_native_fields st self lines line character filetype
    payload fallback_payload :
  use_template_fim st self false = true ->
  build_request_payload st self lines line character filetype false
    = Ok payload ->
  build_request_payload st self lines line character filetype true
    = Ok fallback_payload ->
  ∃ prompt suffix,
    payload !! "prompt" = Some (VStr prompt)
    ∧ payload !! "suffix" = Some (VStr suffix)
    ∧ fallback_payload
      = <["prompt" := VStr (FIM_PREFIX ++ prompt ++ FIM_SUFFIX ++ suffix
                            ++ FIM_MIDDLE)]> (delete "suffix" payload).
Proof.
  intros Hyes Hb Hf.
  destruct (build_request_payload_cases st self lines line character filetype
              false) as (p1 & s1 & i1 & c1 & Hs1 & _ & Hb').
  destruct (build_request_payload_cases st self lines line character filetype
              true) as (p2 & s2 & i2 & c2 & Hs2 & _ & Hf').
  rewrite Hs1 in Hs2. injection Hs2 as <- <- <-.
  rewrite Hb in Hb'. rewrite Hf in Hf'. rewrite Hyes in Hb'.
  assert (use_template_fim st self true = false) as Hforced
    by (unfold use_template_fim; simpl; by rewrite andb_false_r).
  assert (truthy st (fim_enabled self) = true) as Hon.
  { unfold use_template_fim in Hyes.
    by destruct (truthy st (fim_enabled self)). }
  rewrite Hforced, Hon in Hf'.
  injection Hb' as ->. injection Hf' as ->.
  eexists _, _. split; [by simplify_map_eq|]. split; [by simplify_map_eq|].
  unfold _manual_fim_prompt, base_payload.
  rewrite delete_insert_eq, delete_insert_ne by done.
  rewrite insert_insert_eq. f_equal.
Qed.

Lemma fallback_encodes_native_fields_witness :
  ∃ (payload fallback_payload : gmap string pyval) prompt suffix,
    build_request_payload demo_store demo_engine suffix_lines 1 17 (lit "lua")
      false = Ok payload
    ∧ build_request_payload demo_store demo_engine suffix_lines 1 17
        (lit "lua") true = Ok fallback_payload
    ∧ payload !! "prompt" = Some (VStr prompt)
    ∧ payload !! "suffix" = Some (VStr suffix)
    ∧ fallback_payload !! "prompt"
      = Some (VStr (FIM_PREFIX ++ prompt ++ FIM_SUFFIX ++ suffix ++ FIM_MIDDLE)).
Proof.
  destruct (build_request_payload_cases demo_store demo_engine suffix_lines
              1 17 (lit "lua") false)
    as (p1 & s1 & i1 & c1 & _ & _ & Hb).
  destruct (build_request_payload_cases demo_store demo_engine suffix_lines
              1 17 (lit "lua") true)
    as (p2 & s2 & i2 & c2 & _ & _ & Hf).
  destruct (fallback_encodes_native_fields demo_store demo_engine suffix_lines
              1 17 (lit "lua") _ _ eq_refl Hb Hf)
    as (prompt & suffix & Hp & Hsx & Heq).
  eexists _, _, prompt, suffix. split; [exact Hb|]. split; [exact Hf|].
  split; [exact Hp|]. split; [exact Hsx|].
  rewrite Heq. apply lookup_insert_eq.
Defined.

Lemma slice_from_suffix_of {A} (l : list A) (i : Z) : slice_from l i `suffix_of` l.
Proof. exists (slice_to l i). symmetry. apply slice_to_from. Qed.

Lemma slice_to_prefix_of {A} (l : list A) (j : Z) : slice_to l j `prefix_of` l.
Proof. exists (slice_from l j). symmetry. apply slice_to_from. Qed.

Lemma slice_from_last_all {A} (l : list A) (m : Z) :
  len l <= m -> slice_from l (- m) = l.
Proof.
  intros Hm. unfold slice_from, slice_bound, len in *.
  destruct (Z.ltb_spec (- m) 0).
  - replace (Z.to_nat _) with 0%nat by lia. done.
  - replace (Z.to_nat _) with 0%nat by lia. done.
Qed.

Lemma slice_to_all {A} (l : list A) (m : Z) : len l <= m -> slice_to l m = l.
Proof.
  intros Hm. unfold len in Hm. rewrite slice_to_nonneg by lia.
  apply take_ge. lia.
Qed.

(** X9: the two fields of the native payload are the text nearest to the
    cursor: the prompt is an end piece of the prefix and the suffix field a
    start piece of the suffix, and a text within its limit is kept whole. *)
Lemma native_fields_nearest_cursor st self lines line character filetype
    prefix suffix indent payload :
  use_template_fim st self false = true ->
  _split_prefix_suffix lines line character = Ok (prefix, suffix, indent) ->
  build_request_payload st self lines line character filetype false
    = Ok payload ->
  ∃ prompt suffix_field,
    payload !! "prompt" = Some (VStr prompt)
    ∧ payload !! "suffix" = Some (VStr suffix_field)
    ∧ prompt `suffix_of` prefix
    ∧ suffix_field `prefix_of` suffix
    ∧ (len prefix <= max_prefix_chars self -> prompt = prefix)
    ∧ (len suffix <= max_suffix_chars self -> suffix_field = suffix).
Proof.
  intros Hyes Hs Hb.
  destruct (build_request_payload_cases st self lines line character filetype
              false) as (p1 & s1 & i1 & c1 & Hs1 & _ & Hb').
  rewrite Hs in Hs1. injection Hs1 as <- <- <-.
  rewrite Hb, Hyes in Hb'. injection Hb' as ->.
  eexists _, _. split; [by simplify_map_eq|]. split; [by simplify_map_eq|].
  split; [apply slice_from_suffix_of|]. split; [apply slice_to_prefix_of|].
  split; [apply slice_from_last_all | apply slice_to_all].
Qed.

Lemma native_fields_nearest_cursor_witness :
  ∃ payload,
    build_request_payload demo_store demo_engine suffix_lines 1 17 (lit "lua")
      false = Ok payload
    ∧ payload !! "prompt"
      = Some (VStr (lit "local function build(x, y)" ++ [nl]
                    ++ lit "  local result = "))
    ∧ payload !! "suffix"
      = Some (VStr (lit "x " ++ [nl] ++ lit "  return result" ++ [nl]
                    ++ lit "end")).
Proof.
  destruct (build_request_payload_cases demo_store demo_engine suffix_lines
              1 17 (lit "lua") false)
    as (p1 & s1 & i1 & c1 & _ & _ & Hb).
  destruct (native_fields_nearest_cursor demo_store demo_engine suffix_lines
              1 17 (lit "lua")
              (lit "local function build(x, y)" ++ [nl] ++ lit "  local result = ")
              (lit "x " ++ [nl] ++ lit "  return result" ++ [nl] ++ lit "end")
              (lit "  ") _ eq_refl eq_refl Hb)
    as (prompt & sfx & Hp & Hsx & _ & _ & Hwhole1 & Hwhole2).
  eexists. split; [exact Hb|].
  rewrite <- Hwhole1 by (vm_compute; discriminate).
  rewrite <- Hwhole2 by (vm_compute; discriminate).
  by split.
Defined.

(** X10: the manual-FIM prompt stays within the two limits and the 42
    characters of the three markers, for a prefix limit of at least one
    character and a suffix limit that is not negative. *)
Lemma manual_prompt_within_budget st self lines line character filetype
    force_manual_fim payload :
  truthy st (fim_enabled self) = true ->
  use_template_fim st self force_manual_fim = false ->
  1 <= max_prefix_chars self -> 0 <= max_suffix_chars self ->
  build_request_payload st self lines line character filetype force_manual_fim
    = Ok payload ->
  ∃ prompt,
    payload !! "prompt" = Some (VStr prompt)
    ∧ len prompt <= 42 + max_prefix_chars self + max_suffix_chars self.
Proof.
  intros Hon Hno Hp Hsx Hb.
  destruct (build_request_payload_cases st self lines line character filetype
              force_manual_fim) as (p1 & s1 & i1 & c1 & _ & _ & Hb').
  rewrite Hb, Hno, Hon in Hb'. injection Hb' as ->.
  eexists. split; [by simplify_map_eq|].
  unfold _manual_fim_prompt.
  pose proof (length_slice_from_last p1 (max_prefix_chars self) Hp).
  pose proof (length_slice_to s1 (max_suffix_chars self) Hsx).
  unfold len in *. rewrite !length_app.
  change (length FIM_PREFIX) with 14%nat.
  change (length FIM_SUFFIX) with 14%nat.
  change (length FIM_MIDDLE) with 14%nat. lia.
Qed.

Lemma manual_prompt_within_budget_witness :
  ∃ payload prompt,
    build_request_payload demo_store manual_engine suffix_lines 1 17
      (lit "lua") false = Ok payload
    ∧ payload !! "prompt" = Some (VStr prompt)
    ∧ len prompt <= 6042.
Proof.
  destruct (build_request_payload_cases demo_store manual_engine suffix_lines
              1 17 (lit "lua") false)
    as (p1 & s1 & i1 & c1 & _ & _ & Hb).
  destruct (manual_prompt_within_budget demo_store manual_engine suffix_lines
              1 17 (lit "lua") false _ eq_refl eq_refl
              ltac:(simpl; lia) ltac:(simpl; lia) Hb)
    as (prompt & Hp & Hlen).
  eexists _, prompt. split; [exact Hb|]. split; [exact Hp|]. exact Hlen.
Defined.

(** ** More on the context windower *)

(** X11: the block shows, as before-context, the end of the joined lines before
    the cursor line: all of it when it is within [max_prefix_chars], at most
    [max_prefix_chars] characters when that limit is at least one; and its
    two current-line sections are the cursor line cut in two. *)
Lemma centered_prefix_sections self (lines : list str) (line character : Z)
    filetype indent :
  let bounded_line := clamped_line lines line in
  let joined :=
    join [nl] (drop (bounded_line - Z.to_nat (context_lines_before self))
                 (take bounded_line lines)) in
  ∃ before_text line_prefix line_suffix,
    _centered_prefix self lines line character filetype indent
    = Ok (instruction_block filetype indent before_text line_prefix line_suffix)
    ∧ before_text `suffix_of` joined
    ∧ (len joined <= max_prefix_chars self -> before_text = joined)
    ∧ (1 <= max_prefix_chars self -> len before_text <= max_prefix_chars self)
    ∧ line_prefix ++ line_suffix = default [] (lines !! bounded_line).
Proof.
  intros bl joined. eexists _, _, _.
  split; [apply centered_prefix_eq|].
  rewrite windowed_current_line, take_drop.
  unfold window_before_text. rewrite clamped_line_windowed, before_lines_eq.
  fold bl.
  assert (take bl (windowed_lines lines) = take bl lines) as ->.
  { unfold windowed_lines. case_bool_decide as H; [|done]. subst lines.
    assert (bl = 0%nat) as -> by (unfold bl, clamped_line, len; simpl; lia).
    done. }
  fold joined.
  destruct (Z.ltb_spec (max_prefix_chars self) (len joined)).
  - split; [apply slice_from_suffix_of|]. split; [lia|]. split; [|done].
    apply length_slice_from_last.
  - split; [done|]. split; [done|]. split; [lia|done].
Qed.

Lemma centered_prefix_sections_witness :
  ∃ line_prefix line_suffix,
    _centered_prefix demo_engine suffix_lines 1 17 (lit "lua") (lit "  ")
    = Ok (instruction_block (lit "lua") (lit "  ")
            (lit "local function build(x, y)") line_prefix line_suffix)
    ∧ line_prefix ++ line_suffix = lit "  local result = x ".
Proof.
  destruct (centered_prefix_sections demo_engine suffix_lines 1 17 (lit "lua")
              (lit "  "))
    as (bt & lp & ls & Hc & _ & Hwhole & _ & Hline).
  exists lp, ls. split; [|exact Hline].
  rewrite Hc. rewrite Hwhole by (vm_compute; discriminate). reflexivity.
Defined.

(** ** The debug log *)

Lemma build_request_payload_with_debug st self on file lines line character
    filetype force_manual_fim :
  build_request_payload st (with_debug on file self) lines line character
    filetype force_manual_fim
  = build_request_payload st self lines line character filetype
      force_manual_fim.
Proof. reflexivity. Qed.

(** [complete], step by step. *)
Lemma complete_eq {B} (generate : gmap string pyval -> M B (list chunk))
    st self lines line character filetype (w : world B)
    payload fallback_payload :
  build_request_payload st self lines line character filetype false
    = Ok payload ->
  build_request_payload st self lines line character filetype true
    = Ok fallback_payload ->
  complete generate st self lines line character filetype w
  = match generate payload (world_backend w) with
    | (Ok stream, b1) =>
        (Ok (_debug_stream self stream), after_complete self w b1 [payload])
    | (Raise e, b1) =>
        if suffix_type_error e then
          match generate fallback_payload b1 with
          | (Ok stream, b2) =>
              (Ok (_debug_stream self stream),
               after_complete self w b2 [payload; fallback_payload])
          | (Raise e2, b2) =>
              (Raise e2, after_complete self w b2 [payload; fallback_payload])
          end
        else (Raise e, after_complete self w b1 [payload])
    end.
Proof.
  intros Hb Hf.
  unfold complete, mbind, M_bind, lift. rewrite Hb.
  unfold try_except_TypeError, client_generate, mret, M_ret, _debug_log,
    after_complete, suffix_type_error.
  destruct w as [b sent accepts records]. simpl.
  destruct (debug self); simpl;
    destruct (accepts "payload"%string payload); simpl;
    destruct (generate payload b) as [[stream|e] b1]; simpl;
    try (by rewrite ?app_nil_r);
    destruct (exn_class_of e); simpl; try (by rewrite ?app_nil_r);
    destruct (contains (lit "suffix") (exn_message e)); simpl;
    try (by rewrite ?app_nil_r);
    rewrite Hf; simpl;
    destruct (accepts "payload_fallback"%string fallback_payload); simpl;
    destruct (generate fallback_payload b1) as [[stream2|e2] b2]; simpl;
    by rewrite <- ?app_assoc, ?app_nil_r.
Qed.

(** X13: debug logging never changes a completion: with another debug setting
    and another state of the log file, [complete] leaves the backend in the
    same state, submits the same payloads and ends the same way, with the
    same stream or the same error. *)
Lemma complete_unaffected_by_debug {B}
    (generate : gmap string pyval -> M B (list chunk))
    st self on file lines line character filetype (w w' : world B) :
  world_backend w = world_backend w' ->
  submitted w = submitted w' ->
  let done1 := complete generate st self lines line character filetype w in
  let done2 :=
    complete generate st (with_debug on file self) lines line character
      filetype w' in
  world_backend (snd done1) = world_backend (snd done2)
  ∧ submitted (snd done1) = submitted (snd done2)
  ∧ ((∃ stream, fst done1 = Ok (_debug_stream self stream)
                ∧ fst done2 = Ok (_debug_stream (with_debug on file self) stream))
     ∨ (∃ e, fst done1 = Raise e ∧ fst done2 = Raise e)).
Proof.
  intros Hbk Hsent done1 done2.
  destruct (build_request_payload_cases st self lines line character filetype
              false) as (p1 & s1 & i1 & c1 & _ & _ & Hb).
  destruct (build_request_payload_cases st self lines line character filetype
              true) as (p2 & s2 & i2 & c2 & _ & _ & Hf).
  unfold done1, done2.
  rewrite (complete_eq generate st self _ _ _ _ w _ _ Hb Hf).
  rewrite (complete_eq generate st (with_debug on file self) _ _ _ _ w' _ _
             Hb Hf).
  rewrite <- Hbk.
  destruct (generate _ (world_backend w)) as [[stream|e] b1]; simpl.
  - rewrite Hsent. eauto 6.
  - destruct (suffix_type_error e); simpl.
    + destruct (generate _ b1) as [[stream2|e2] b2]; simpl;
        rewrite Hsent; eauto 6.
    + rewrite Hsent. eauto 6.
Qed.

Lemma complete_unaffected_by_debug_witness :
  submitted
    (snd (complete old_client demo_store demo_engine suffix_lines 1 17
            (lit "lua") fresh_world))
  = submitted
      (snd (complete old_client demo_store
              (with_debug true (VStr (lit "/tmp/log")) demo_engine)
              suffix_lines 1 17 (lit "lua") fresh_world)).
Proof.
  exact (proj1 (proj2 (complete_unaffected_by_debug old_client demo_store
                         demo_engine true (VStr (lit "/tmp/log")) suffix_lines
                         1 17 (lit "lua") fresh_world fresh_world
                         eq_refl eq_refl))).
Defined.


(** ** More on the constructor *)

(** What a successful [__init__] has done: [l] is the dict it settled on,
    [st0] the store once that dict is there and [d] its content then. *)
Lemma init_success env model_name url opts st self st' :
  __init__ env model_name url opts st = (Ok self, st') ->
  ∃ (l : loc) (st0 stx sty : store) (d : gmap string pyval),
    ((opts = Some l ∧ deref st l ≠ ∅ ∧ st0 = st)
     ∨ (match opts with Some l1 => deref st l1 = ∅ | None => True end
        ∧ l = fresh (dom st) ∧ st0 = <[l := ∅]> st))
    ∧ d = deref st0 l
    ∧ options self = l ∧ model self = model_name ∧ client self = url
    ∧ fim_enabled self = default (VBool true) (d !! "fim_enabled")
    ∧ fim_mode self = default (VStr (lit "auto")) (d !! "fim_mode")
    ∧ py_int (default (VInt 80) (d !! "context_lines_before"))
      = Ok (context_lines_before self)
    ∧ py_int (default (VInt 40) (d !! "context_lines_after"))
      = Ok (context_lines_after self)
    ∧ py_int (default (VInt 8000) (d !! "max_prefix_chars"))
      = Ok (max_prefix_chars self)
    ∧ py_int (default (VInt 3000) (d !! "max_suffix_chars"))
      = Ok (max_suffix_chars self)
    ∧ debug self
      = truthy stx (default (VBool false) (d !! "debug"))
        || bool_decide (getenv env "OLLAMA_COPILOT_DEBUG" [] = lit "1")
    ∧ debug_log_file self
      = py_or sty (default VNone (d !! "debug_log_file"))
          (VStr (getenv env "OLLAMA_COPILOT_DEBUG_LOG"
                   (lit "/tmp/ollama-copilot-debug.log")))
    ∧ st' = <[l := delete "debug_log_file" (delete "debug"
                     (delete "max_suffix_chars" (delete "max_prefix_chars"
                       (delete "context_lines_after"
                         (delete "context_lines_before" (delete "fim_mode"
                           (delete "fim_enabled" d)))))))]> st0.
Proof.
  unfold __init__, mbind, M_bind, get_state, lift, mret, M_ret, dict_pop.
  intros H.
  set (first := match opts with
                | Some l => if truthy st (VDict l) then _ else new_dict
                | None => new_dict
                end st) in H.
  destruct first as [[l|e] st0] eqn:Hfirst; [|discriminate].
  assert ((opts = Some l ∧ deref st l ≠ ∅ ∧ st0 = st)
          ∨ (match opts with Some l1 => deref st l1 = ∅ | None => True end
             ∧ l = fresh (dom st) ∧ st0 = <[l := ∅]> st)) as Hadopt.
  { clear H. unfold first, new_dict in Hfirst. destruct opts as [l1|].
    - unfold truthy in Hfirst.
      destruct (decide (deref st l1 = ∅)) as [Hd|Hd].
      + rewrite bool_decide_eq_true_2 in Hfirst by done. simpl in Hfirst.
        injection Hfirst as <- <-. by right.
      + rewrite bool_decide_eq_false_2 in Hfirst by done. simpl in Hfirst.
        injection Hfirst as <- <-. by left.
    - injection Hfirst as <- <-. by right. }
  clear Hfirst first.
  repeat (match type of H with
          | context [py_int ?v] =>
              let E := fresh "Hint" in
              destruct (py_int v) eqn:E; [|discriminate]
          end).
  injection H as <- <-.
  rewrite ?deref_insert in *.
  rewrite ?lookup_delete_ne in * by done.
  rewrite !insert_insert_eq.
  eexists l, st0, _, _, (deref st0 l).
  split; [exact Hadopt|]. simpl.
  repeat split; try done.
Qed.

(** The content of the dict the caller passes, if any. *)
Lemma init_success_dict env model_name url opts st self st' :
  __init__ env model_name url opts st = (Ok self, st') ->
  ∃ (stx sty : store),
    let d := match opts with Some l => deref st l | None => ∅ end in
    fim_enabled self = default (VBool true) (d !! "fim_enabled")
    ∧ fim_mode self = default (VStr (lit "auto")) (d !! "fim_mode")
    ∧ py_int (default (VInt 80) (d !! "context_lines_before"))
      = Ok (context_lines_before self)
    ∧ py_int (default (VInt 40) (d !! "context_lines_after"))
      = Ok (context_lines_after self)
    ∧ py_int (default (VInt 8000) (d !! "max_prefix_chars"))
      = Ok (max_prefix_chars self)
    ∧ py_int (default (VInt 3000) (d !! "max_suffix_chars"))
      = Ok (max_suffix_chars self)
    ∧ debug self
      = truthy stx (default (VBool false) (d !! "debug"))
        || bool_decide (getenv env "OLLAMA_COPILOT_DEBUG" [] = lit "1")
    ∧ debug_log_file self
      = py_or sty (default VNone (d !! "debug_log_file"))
          (VStr (getenv env "OLLAMA_COPILOT_DEBUG_LOG"
                   (lit "/tmp/ollama-copilot-debug.log"))).
Proof.
  intros Hinit.
  destruct (init_success _ _ _ _ _ _ _ Hinit)
    as (l & st0 & stx & sty & d & Hadopt & Hd & _ & _ & _ & H).
  exists stx, sty. intros d'.
  assert (d = d') as <-.
  { unfold d'. destruct Hadopt as [(-> & _ & ->) | (Hempty & -> & ->)]; [done|].
    rewrite deref_insert in Hd. by destruct opts; subst. }
  tauto.
Qed.



(** X16: a non-empty options dict is the caller's own dict, changed in place:
    the engine refers to it, the recognized keys are gone from it, every
    other entry is as it was, and no other dict of the store is touched. *)
Lemma init_adopts_options_dict env model_name url (l : loc) st self st' :
  deref st l ≠ ∅ ->
  __init__ env model_name url (Some l) st = (Ok self, st') ->
  options self = l
  ∧ (∀ key, deref st' l !! key
            = if bool_decide (key ∈ recognized_keys) then None
              else deref st l !! key)
  ∧ (∀ l', l' ≠ l -> st' !! l' = st !! l').
Proof.
  intros Hne Hinit.
  destruct (init_success _ _ _ _ _ _ _ Hinit)
    as (l0 & st0 & stx & sty & d & Hadopt & Hd & Hopt & _ & _ & _ & _ & _ & _
        & _ & _ & _ & _ & Hst).
  destruct Hadopt as [(Hl & _ & ->) | (Hempty & _ & _)]; [|done].
  injection Hl as <-. subst d st'.
  split; [done|]. split.
  - intros key. rewrite deref_insert. unfold recognized_keys.
    case_bool_decide as Hkey.
    + repeat (apply elem_of_cons in Hkey as [-> | Hkey];
              [by simplify_map_eq|]).
      by apply elem_of_nil in Hkey.
    + rewrite !lookup_delete_ne; [done|..];
        intros <-; apply Hkey; repeat constructor.
  - intros l' Hl'. by rewrite lookup_insert_ne.
Qed.

Lemma init_adopts_options_dict_witness :
  options demo_engine = 1%positive
  ∧ deref demo_store 1%positive !! "temperature" = Some (VFloat (FFinite 1 10))
  ∧ deref demo_store 1%positive !! "fim_mode" = None.
Proof.
  assert (__init__ ∅ (lit "qwen2.5-coder:3b") (lit "http://localhost:11434")
            (Some 1%positive) demo_options
          = (Ok demo_engine, demo_store)) as Hinit
    by (vm_compute; reflexivity).
  assert (deref demo_options 1%positive ≠ ∅) as Hne.
  { intros H.
    assert (deref demo_options 1%positive !! "num_ctx" = None) as Hnone
      by (rewrite H; apply lookup_empty).
    discriminate Hnone. }
  destruct (init_adopts_options_dict _ _ _ _ _ _ _ Hne Hinit)
    as (Ho & Hkeys & _).
  split; [exact Ho|]. split; rewrite Hkeys; reflexivity.
Defined.

(** X17: each setting is the caller's entry when the options dict has one and
    the default otherwise; the four integer settings go through [int]. *)
Lemma init_reads_options env model_name url opts st self st' :
  __init__ env model_name url opts st = (Ok self, st') ->
  let d := match opts with Some l => deref st l | None => ∅ end in
  model self = model_name
  ∧ fim_enabled self = default (VBool true) (d !! "fim_enabled")
  ∧ fim_mode self = default (VStr (lit "auto")) (d !! "fim_mode")
  ∧ py_int (default (VInt 80) (d !! "context_lines_before"))
    = Ok (context_lines_before self)
  ∧ py_int (default (VInt 40) (d !! "context_lines_after"))
    = Ok (context_lines_after self)
  ∧ py_int (default (VInt 8000) (d !! "max_prefix_chars"))
    = Ok (max_prefix_chars self)
  ∧ py_int (default (VInt 3000) (d !! "max_suffix_chars"))
    = Ok (max_suffix_chars self).
Proof.
  intros Hinit d.
  destruct (init_success _ _ _ _ _ _ _ Hinit)
    as (_ & _ & _ & _ & _ & _ & _ & _ & Hmodel & _).
  destruct (init_success_dict _ _ _ _ _ _ _ Hinit) as (stx & sty & H).
  cbv zeta in H. fold d in H. tauto.
Qed.

Lemma init_reads_options_witness :
  __init__ ∅ (lit "qwen2.5-coder:3b") (lit "http://localhost:11434")
    (Some 1%positive) demo_options
  = (Ok demo_engine, demo_store)
  ∧ py_int (default (VInt 8000) (deref demo_options 1%positive !! "max_prefix_chars"))
    = Ok (max_prefix_chars demo_engine).
Proof.
  assert (__init__ ∅ (lit "qwen2.5-coder:3b") (lit "http://localhost:11434")
            (Some 1%positive) demo_options
          = (Ok demo_engine, demo_store)) as Hinit
    by (vm_compute; reflexivity).
  split; [exact Hinit|].
  destruct (init_reads_options _ _ _ _ _ _ _ Hinit)
    as (_ & _ & _ & _ & _ & H & _).
  exact H.
Defined.

(** X18: the environment settles the debug settings the options leave open:
    [OLLAMA_COPILOT_DEBUG=1] turns debugging on whatever the options say,
    without a ["debug"] entry debugging is on only then, and without a
    ["debug_log_file"] entry the log file is [OLLAMA_COPILOT_DEBUG_LOG] or,
    failing that, the default path. *)
Lemma init_debug_from_environment env model_name url opts st self st' :
  __init__ env model_name url opts st = (Ok self, st') ->
  let d := match opts with Some l => deref st l | None => ∅ end in
  (env !! "OLLAMA_COPILOT_DEBUG" = Some (lit "1") -> debug self = true)
  ∧ (d !! "debug" = None ->
     debug self = bool_decide (env !! "OLLAMA_COPILOT_DEBUG" = Some (lit "1")))
  ∧ (d !! "debug_log_file" = None ->
     debug_log_file self
     = VStr (default (lit "/tmp/ollama-copilot-debug.log")
               (env !! "OLLAMA_COPILOT_DEBUG_LOG"))).
Proof.
  intros Hinit d.
  destruct (init_success_dict _ _ _ _ _ _ _ Hinit) as (stx & sty & H).
  cbv zeta in H. fold d in H.
  destruct H as (_ & _ & _ & _ & _ & _ & Hdebug & Hfile).
  assert (bool_decide (getenv env "OLLAMA_COPILOT_DEBUG" [] = lit "1")
          = bool_decide (env !! "OLLAMA_COPILOT_DEBUG" = Some (lit "1"))) as Henv.
  { unfold getenv. apply bool_decide_ext.
    destruct (env !! "OLLAMA_COPILOT_DEBUG") as [v|]; simpl.
    - split; [by intros -> | by intros [= ->]].
    - split; [intros H; discriminate H | intros H; discriminate H]. }
  rewrite Henv in Hdebug.
  split; [|split].
  - intros Hone. rewrite Hdebug, bool_decide_eq_true_2 by done.
    apply orb_true_r.
  - intros Hno. rewrite Hdebug, Hno. reflexivity.
  - intros Hno. rewrite Hfile, Hno. reflexivity.
Qed.

Lemma init_debug_from_environment_witness :
  __init__ {[ "OLLAMA_COPILOT_DEBUG"%string := lit "1" ]}
    (lit "m") (lit "u") None ∅
  = (Ok (default_engine {[ "OLLAMA_COPILOT_DEBUG"%string := lit "1" ]}
           (lit "m") (lit "u") 1%positive),
     {[ 1%positive := ∅ ]})
  ∧ debug (default_engine {[ "OLLAMA_COPILOT_DEBUG"%string := lit "1" ]}
             (lit "m") (lit "u") 1%positive) = true.
Proof.
  assert (__init__ {[ "OLLAMA_COPILOT_DEBUG"%string := lit "1" ]}
            (lit "m") (lit "u") None ∅
          = (Ok (default_engine {[ "OLLAMA_COPILOT_DEBUG"%string := lit "1" ]}
                   (lit "m") (lit "u") 1%positive),
             {[ 1%positive := ∅ ]})) as Hinit
    by (vm_compute; reflexivity).
  split; [exact Hinit|].
  exact (proj1 (init_debug_from_environment _ _ _ _ _ _ _ Hinit) eq_refl).
Defined.
